(** * Release-notes generator: a shallow embedding of
      [docs/repo-release-notes-generator.py] and its verified properties.

    The script is Python 2 (it calls [reload(sys)] and
    [sys.setdefaultencoding]).  It imports [unicode_literals], so every
    string literal is a [unicode] object, and [str.replace] called with
    [unicode] arguments returns [unicode]: by the time [bodyBreaker] sees a
    title or a body, the text is a sequence of code points again.  Text is
    therefore modelled as a list of code points (a build of Python with
    4-byte [unicode]; the UTF-8 round trip of [encode] and the implicit
    decoding is the identity there).

    The remote service is the environment: a function that receives a
    response receives it parsed, as [json.loads] returns it.  A function
    that prints and may raise returns what it printed and either its value
    or the exception. *)

From Stdlib Require Import Ascii String.
From Stdlib Require Import List ZArith NArith Lia Bool.
From Stdlib Require Import DecimalString Permutation Sorted.
Import ListNotations.

Set Implicit Arguments.
Set Warnings "-register-all".

(** ** Text *)

Module Text.

Definition char := N.
Definition pystr := list char.

(** A literal of the script. *)
Definition lit (s : string) : pystr := map N_of_ascii (list_ascii_of_string s).

Definition LF : char := 10%N.
Definition CR : char := 13%N.
Definition SPACE : char := 32%N.
Definition BACKTICK : char := 96%N.

Definition char_eqb (a b : char) : bool := N.eqb a b.

Fixpoint str_eqb (a b : pystr) : bool :=
  match a, b with
  | [], [] => true
  | x :: a', y :: b' => char_eqb x y && str_eqb a' b'
  | _, _ => false
  end.

(** [unicode.isspace] for one code point, as Python 2.7 decides it
    ([_PyUnicode_IsWhitespace]); [unicode.split()] without arguments splits
    on runs of these. *)
Definition isspace (c : char) : bool :=
  let between lo hi := (N.leb lo c && N.leb c hi)%bool in
  between 9%N 13%N || between 28%N 32%N
  || N.eqb c 133%N || N.eqb c 160%N
  || N.eqb c 5760%N || N.eqb c 6158%N
  || between 8192%N 8202%N
  || N.eqb c 8232%N || N.eqb c 8233%N
  || N.eqb c 8239%N || N.eqb c 8287%N || N.eqb c 12288%N.

(** [s.replace(old, new)] where [old] is a single character. *)
Definition replace_char (old : char) (new : pystr) (s : pystr) : pystr :=
  flat_map (fun c => if char_eqb c old then new else [c]) s.

(** [s[0:stop]], with Python's reading of a negative [stop]. *)
Definition slice_to (stop : Z) (s : pystr) : pystr :=
  if (0 <=? stop)%Z then firstn (Z.to_nat stop) s
  else firstn (Z.to_nat (Z.of_nat (length s) + stop)) s.

(** [s.endswith(suffix)]. *)
Definition endswith (s suffix : pystr) : bool :=
  str_eqb (skipn (length s - length suffix) s) suffix
  && (length suffix <=? length s).

(** [s.split()]: the maximal runs of non-whitespace characters, in order.
    [scan] reads the string from its end: it returns the word that starts at
    the head of the string (empty when the head is whitespace) and the words
    after it. *)
Definition cons_word (w : pystr) (ws : list pystr) : list pystr :=
  match w with
  | [] => ws
  | _ :: _ => w :: ws
  end.

Fixpoint scan (s : pystr) : pystr * list pystr :=
  match s with
  | [] => ([], [])
  | c :: rest =>
      let (w, ws) := scan rest in
      if isspace c then ([], cons_word w ws) else (c :: w, ws)
  end.

Definition split (s : pystr) : list pystr :=
  let (w, ws) := scan s in cons_word w ws.

(** ASCII [str.capitalize()]: labels are byte strings, so only the 26
    letters change case. *)
Definition upper (c : char) : char :=
  if (N.leb 97 c && N.leb c 122)%bool then (c - 32)%N else c.
Definition lower (c : char) : char :=
  if (N.leb 65 c && N.leb c 90)%bool then (c + 32)%N else c.
Definition capitalize (s : pystr) : pystr :=
  match s with
  | [] => []
  | c :: rest => upper c :: map lower rest
  end.

(** ["{}".format(n)] for a non-negative integer. *)
Definition decimal (n : nat) : pystr :=
  lit (NilZero.string_of_uint (Nat.to_uint n)).

End Text.
Import Text.

(** ** The sanitizer, [bodyBreaker]

    It is local to [generateTable]; the only widths that reach it are the
    literals 25 and 50, so the width is a natural number. *)

Definition break_word (width : nat) (word : pystr) : pystr :=
  if width <? length word then firstn width word ++ lit ".." else word.

Definition bodyBreaker (body : pystr) (width : nat) : pystr :=
  let parts := split body in
  fold_left (fun body word => body ++ (break_word width word ++ [SPACE]))
            parts [].

(** ** Parsed JSON and the Python operations the script applies to it

    [json.loads] gives [None], booleans, numbers, [unicode] strings, lists
    and dicts.  A dict is kept as the list of its items; a key is looked up
    from the head. *)

Inductive json : Type :=
| JNull
| JBool (b : bool)
| JInt (z : Z)
| JFloat (literal : pystr)
| JStr (s : pystr)
| JList (items : list json)
| JDict (fields : list (pystr * json)).

Inductive exn : Type := TypeError | KeyError | AttributeError.

Inductive res (A : Type) : Type :=
| Ok (a : A)
| Raise (e : exn).
Arguments Raise {A} e.

Fixpoint lookup (A : Type) (k : pystr) (d : list (pystr * A)) : option A :=
  match d with
  | [] => None
  | (k', v) :: d' => if str_eqb k' k then Some v else lookup k d'
  end.

(** [d[k] = v] on a dict. *)
Fixpoint dict_set (A : Type) (k : pystr) (v : A) (d : list (pystr * A))
  : list (pystr * A) :=
  match d with
  | [] => [(k, v)]
  | (k', v') :: d' =>
      if str_eqb k' k then (k', v) :: d' else (k', v') :: dict_set k v d'
  end.

(** [x[key]] with a string key. *)
Definition getitem (x : json) (key : pystr) : res json :=
  match x with
  | JDict d => match lookup key d with
               | Some v => Ok v
               | None => Raise KeyError
               end
  | _ => Raise TypeError
  end.

(** [x[0:limit]]. *)
Definition getslice (x : json) (limit : Z) : res json :=
  match x with
  | JStr s => Ok (JStr (slice_to limit s))
  | JList l =>
      Ok (JList (if (0 <=? limit)%Z then firstn (Z.to_nat limit) l
                 else firstn (Z.to_nat (Z.of_nat (length l) + limit)) l))
  | _ => Raise TypeError
  end.

(** [x.encode('utf-8')]: only a string has the method.  The bytes go
    through [str.replace] with [unicode] arguments or into a [unicode]
    format, which decodes them again under the default encoding the script
    installs, so the text is the same code points. *)
Definition encode (x : json) : res pystr :=
  match x with
  | JStr s => Ok s
  | _ => Raise AttributeError
  end.

(** [len(x)]. *)
Definition len (x : json) : res nat :=
  match x with
  | JStr s => Ok (length s)
  | JList l => Ok (length l)
  | JDict d => Ok (length d)
  | _ => Raise TypeError
  end.

(** The values [for result in x] runs through. *)
Definition iter (x : json) : res (list json) :=
  match x with
  | JList l => Ok l
  | JDict d => Ok (map (fun kv => JStr (fst kv)) d)
  | JStr s => Ok (map (fun c => JStr [c]) s)
  | _ => Raise TypeError
  end.

(** [x == s] for a string literal [s]. *)
Definition eq_str (x : json) (s : pystr) : bool :=
  match x with
  | JStr t => str_eqb t s
  | _ => false
  end.

(** ** Standard output and exceptions

    What [print] wrote so far is kept when an exception ends the run.  A
    row, a contributor link and the banner of [main] keep the arguments of
    their format strings: a URL is whatever value the response holds. *)

Inductive event : Type :=
| Println (s : pystr)
| PrintRow (title : pystr) (url : json) (body : pystr)
           (user : pystr) (user_url : json)
| PrintLink (user : pystr) (url : json)
| PrintBanner (repo : pystr) (labels : list pystr).

Definition M (A : Type) : Type := (list event * res A)%type.

Definition ret (A : Type) (a : A) : M A := ([], Ok a).

Definition bind (A B : Type) (m : M A) (f : A -> M B) : M B :=
  match m with
  | (out, Ok a) => let (out', r) := f a in (out ++ out', r)
  | (out, Raise e) => (out, Raise e)
  end.

Definition lift (A : Type) (r : res A) : M A := ([], r).

Definition print (e : event) : M unit := ([e], Ok tt).

Declare Scope py_scope.
Delimit Scope py_scope with py.
Notation "x <- m ;; k" := (bind m (fun x => k))
  (at level 61, m at next level, right associativity) : py_scope.
Notation "m ;; k" := (bind m (fun _ => k))
  (at level 61, right associativity) : py_scope.
Local Open Scope py_scope.

(** ** [getLabels]

    [requests.get(url)] and [json.loads] are the environment; [output] is
    the parsed response. *)

Fixpoint getLabels_loop (results : list json) (labels : list pystr)
  : M (list pystr) :=
  match results with
  | [] => ret labels
  | result :: rest =>
      name <- lift (getitem result (lit "name")) ;;
      name <- lift (encode name) ;;
      getLabels_loop rest (labels ++ [name])
  end.

Definition getLabels (output : json) : M (list pystr) :=
  let labels := [] in
  message <- lift (getitem output (lit "message")) ;;
  if eq_str message (lit "Not Found") then
    print (Println (lit "That repo and/or label was not found.")) ;;
    ret labels
  else
    results <- lift (iter output) ;;
    getLabels_loop results labels.

(** ** [collections.Counter]

    A [Counter] is a dict from keys to counts; a missing key reads as 0.
    The script only ever adds keys, so a counter is kept as its items in the
    order the keys were first stored.  That order is the history of the
    dict, not the order in which Python 2 iterates it: see [PyDict]. *)

Definition Counter : Type := list (pystr * Z).

(** [c[k]] *)
Definition counter_get (c : Counter) (k : pystr) : Z :=
  match lookup k c with
  | Some n => n
  | None => 0%Z
  end.

(** [c[k] += 1] *)
Definition counter_incr (c : Counter) (k : pystr) : Counter :=
  dict_set k (counter_get c k + 1)%Z c.

(** ** Iteration order of a CPython 2.7 dict

    A Python 2 dict iterates its hash table slot by slot.  The model follows
    [Objects/stringobject.c] ([string_hash]) and [Objects/dictobject.c]
    ([lookdict_string], [PyDict_SetItem], [dictresize]) of CPython 2.7 on a
    64-bit [long], with hash randomization off, which is the default. *)

Module PyDict.

Definition wrap (x : N) : N := (x mod 2 ^ 64)%N.

(** The bytes of [s.encode('utf-8')]: the keys of the counter are byte
    strings. *)
Definition utf8_char (c : char) : list N :=
  (if c <? 128 then [c]
   else if c <? 2048 then [192 + c / 64; 128 + c mod 64]
   else if c <? 65536 then
     [224 + c / 4096; 128 + (c / 64) mod 64; 128 + c mod 64]
   else [240 + c / 262144; 128 + (c / 4096) mod 64;
         128 + (c / 64) mod 64; 128 + c mod 64])%N.

Definition utf8 (s : pystr) : list N := flat_map utf8_char s.

(** [string_hash]: [x = *p << 7; while (--len >= 0) x = (1000003*x) ^ *p++;
    x ^= Py_SIZE(a); if (x == -1) x = -2]. *)
Definition string_hash (bytes : list N) : N :=
  match bytes with
  | [] => 0%N
  | p :: _ =>
      let x := fold_left (fun x b => N.lxor (wrap (1000003 * x)) b)
                         bytes (wrap (p * 128)) in
      let x := N.lxor x (N.of_nat (length bytes)) in
      if (x =? 2 ^ 64 - 1)%N then (2 ^ 64 - 2)%N else x
  end.

Definition entry : Type := (N * pystr)%type.
Definition table : Type := list (option entry).

Definition slot (t : table) (i : N) : option entry :=
  nth (N.to_nat i) t None.

Fixpoint store (t : table) (i : nat) (e : entry) : table :=
  match t, i with
  | [], _ => []
  | _ :: t', O => Some e :: t'
  | s :: t', S i' => s :: store t' i' e
  end.

(** The first free slot of the table, scanning from slot 0. *)
Fixpoint first_free (t : table) : nat :=
  match t with
  | [] => O
  | None :: _ => O
  | Some _ :: t' => S (first_free t')
  end.

(** The collision loop of [lookdict_string] for a key that is not in the
    table: [i = (i << 2) + i + perturb + 1], slot [i & mask], then
    [perturb >>= 5].  The loop ends on a free slot; the recurrence visits
    every slot once [perturb] is 0, so it does before the fuel is used up
    in a table with a free slot. *)
Fixpoint probe (fuel : nat) (t : table) (mask i perturb : N) : nat :=
  match fuel with
  | O => first_free t
  | S fuel' =>
      let i' := wrap (i * 4 + i + perturb + 1) in
      match slot t (N.land i' mask) with
      | None => N.to_nat (N.land i' mask)
      | Some _ => probe fuel' t mask i' (N.shiftr perturb 5)
      end
  end.

Definition find_slot (t : table) (hash : N) : nat :=
  let mask := (N.of_nat (length t) - 1)%N in
  let i := N.land hash mask in
  match slot t i with
  | None => N.to_nat i
  | Some _ => probe (length t + 16) t mask i hash
  end.

Definition insert_clean (t : table) (e : entry) : table :=
  store t (find_slot t (fst e)) e.

Definition entries (t : table) : list entry :=
  flat_map (fun s => match s with Some e => [e] | None => [] end) t.

(** [for (newsize = PyDict_MINSIZE; newsize <= minused; newsize <<= 1);] *)
Fixpoint grow (fuel : nat) (newsize minused : nat) : nat :=
  match fuel with
  | O => newsize
  | S fuel' =>
      if newsize <=? minused then grow fuel' (2 * newsize) minused
      else newsize
  end.

Definition dictresize (t : table) (minused : nat) : table :=
  fold_left insert_clean (entries t) (repeat None (grow minused 8 minused)).

(** [PyDict_SetItem] with a key that is not yet in the dict. *)
Definition setitem_new (t : table) (key : pystr) : table :=
  let t' := insert_clean t (string_hash (utf8 key), key) in
  let used := length (entries t') in
  if length t' * 2 <=? used * 3
  then dictresize t' ((if (50000 <? N.of_nat used)%N then 2 else 4) * used)
  else t'.

Definition empty : table := repeat None 8.

(** The keys as the dict iterates them after they were stored in the order
    [keys]. *)
Definition iteration_order (keys : list pystr) : list pystr :=
  map snd (entries (fold_left setitem_new keys empty)).

End PyDict.

(** [c.iteritems()] *)
Definition iteritems (c : Counter) : list (pystr * Z) :=
  map (fun k => (k, counter_get c k)) (PyDict.iteration_order (map fst c)).

(** [sorted(items, key=itemgetter(1), reverse=True)]: a stable sort, larger
    counts first, equal counts in the order of [items]. *)
Fixpoint insert_desc (x : pystr * Z) (l : list (pystr * Z))
  : list (pystr * Z) :=
  match l with
  | [] => [x]
  | y :: l' =>
      if (snd x <? snd y)%Z then y :: insert_desc x l' else x :: y :: l'
  end.

Definition sorted_desc (items : list (pystr * Z)) : list (pystr * Z) :=
  fold_right insert_desc [] items.

(** [c.most_common()] *)
Definition most_common (c : Counter) : list (pystr * Z) :=
  sorted_desc (iteritems c).

(** ** [generateList] *)

Definition display_label (label : pystr) : pystr :=
  let label := capitalize label in
  if str_eqb label (lit "Bug") then lit "Bug Fix" else label.

Fixpoint generateList_loop (contributors : list (pystr * json))
         (ranked : list (pystr * Z)) : M unit :=
  match ranked with
  | [] => ret tt
  | (user, _rank) :: rest =>
      url <- lift (getitem (JDict contributors) user) ;;
      print (PrintLink user url) ;;
      generateList_loop contributors rest
  end.

Definition generateList (contributors : list (pystr * json))
           (counter : Counter) (label : pystr) : M unit :=
  let label := display_label label in
  print (Println (LF :: lit "### " ++ label ++ lit " Contributors" ++ [LF])) ;;
  let ranked := most_common counter in
  generateList_loop contributors ranked ;;
  print (Println [LF]).

(** ** [generateTable] *)

Record params : Type := { labels : pystr; state : pystr; since : pystr }.

Definition intro : pystr :=
  LF :: lit "| Title | Summary | Contributor |" ++ LF :: lit "|---|---|---|".

Definition total_line (total returned : nat) : pystr :=
  lit "Total of " ++ decimal total ++ lit " out of " ++ decimal returned
      ++ [LF].

Record pass : Type :=
  { contributors : list (pystr * json); tally : Counter; total : nat }.

(** The body of the [for result in output] loop. *)
Definition generateTable_step (limit : Z) (result : json) (st : pass)
  : M pass :=
  title <- lift (getitem result (lit "title")) ;;
  title <- lift (encode title) ;;
  let title := replace_char CR [] (replace_char LF [SPACE] title) in
  let title := bodyBreaker title 25 in
  url <- lift (getitem result (lit "html_url")) ;;
  body <- lift (getitem result (lit "body")) ;;
  body <- lift (getslice body limit) ;;
  body <- lift (encode body) ;;
  let body := replace_char BACKTICK []
                (replace_char CR [] (replace_char LF [SPACE] body)) in
  raw <- lift (getitem result (lit "body")) ;;
  n <- lift (len raw) ;;
  let body := if (limit <? Z.of_nat n)%Z then body ++ lit "..." else body in
  let body := bodyBreaker body 50 in
  let body := if length body =? 0 then lit "n/a" else body in
  author <- lift (getitem result (lit "user")) ;;
  login <- lift (getitem author (lit "login")) ;;
  user <- lift (encode login) ;;
  author <- lift (getitem result (lit "user")) ;;
  user_url <- lift (getitem author (lit "html_url")) ;;
  let contributors := dict_set user user_url (contributors st) in
  let c := counter_incr (tally st) user in
  print (PrintRow title url body user user_url) ;;
  ret {| contributors := contributors; tally := c; total := total st + 1 |}.

Fixpoint generateTable_loop (limit : Z) (results : list json) (st : pass)
  : M pass :=
  match results with
  | [] => ret st
  | result :: rest =>
      st' <- generateTable_step limit result st ;;
      generateTable_loop limit rest st'
  end.

Definition generateTable (output : json) (p : params) (limit : Z)
           (c : Counter) : M (list (pystr * json) * Counter) :=
  let st := {| contributors := []; tally := c; total := 0 |} in
  let label := display_label (labels p) in
  print (Println (LF :: lit "## " ++ label ++ lit " Updates")) ;;
  print (Println intro) ;;
  results <- lift (iter output) ;;
  st <- generateTable_loop limit results st ;;
  returned <- lift (len output) ;;
  print (Println (total_line (total st) returned)) ;;
  ret (contributors st, tally st).

(** ** [main]

    The remote service is a function from the query parameters to the
    parsed response. *)

Fixpoint main_loop (fetch : params -> json) (since : pystr) (limit : Z)
         (label_list : list pystr) : M unit :=
  match label_list with
  | [] => ret tt
  | label :: rest =>
      let p := {| labels := label; state := lit "closed"; since := since |} in
      let this_counter : Counter := [] in
      r <- generateTable (fetch p) p limit this_counter ;;
      let (contributors, this_counter) := r in
      generateList contributors this_counter label ;;
      main_loop fetch since limit rest
  end.

Definition main (fetch : params -> json) (repo since : pystr) (limit : Z)
           (label_list : list pystr) : M unit :=
  print (PrintBanner repo label_list) ;;
  main_loop fetch since limit label_list.

(** ** The command line

    [argparse] stores what the command line gives.  No option has a
    [type], so a value given on the command line is a string: [--limit]
    is the integer 180 only by default, and [--all], declared with
    [action='store'], is [False] by default and a string otherwise. *)

Inductive limit_value : Type :=
| IntLimit (z : Z)
| StrLimit (s : pystr).

Record arguments : Type :=
  { arg_repo : pystr;
    arg_since : pystr;
    arg_limit : limit_value;
    arg_list : bool;
    arg_labels : list pystr;
    arg_all : option pystr;
    arg_message : pystr }.

(** The functions above, with the limit as [argparse] stores it. *)
Module Cli.

(** [x[0:limit]]: a string is not a slice index, whatever [x] is. *)
Definition getslice (x : json) (limit : limit_value) : res json :=
  match limit with
  | IntLimit z => getslice x z
  | StrLimit _ => Raise TypeError
  end.

(** [n > limit]: Python 2 orders every integer before every string. *)
Definition gt (n : nat) (limit : limit_value) : bool :=
  match limit with
  | IntLimit z => (z <? Z.of_nat n)%Z
  | StrLimit _ => false
  end.

Definition generateTable_step (limit : limit_value) (result : json)
           (st : pass) : M pass :=
  title <- lift (getitem result (lit "title")) ;;
  title <- lift (encode title) ;;
  let title := replace_char CR [] (replace_char LF [SPACE] title) in
  let title := bodyBreaker title 25 in
  url <- lift (getitem result (lit "html_url")) ;;
  body <- lift (getitem result (lit "body")) ;;
  body <- lift (getslice body limit) ;;
  body <- lift (encode body) ;;
  let body := replace_char BACKTICK []
                (replace_char CR [] (replace_char LF [SPACE] body)) in
  raw <- lift (getitem result (lit "body")) ;;
  n <- lift (len raw) ;;
  let body := if gt n limit then body ++ lit "..." else body in
  let body := bodyBreaker body 50 in
  let body := if length body =? 0 then lit "n/a" else body in
  author <- lift (getitem result (lit "user")) ;;
  login <- lift (getitem author (lit "login")) ;;
  user <- lift (encode login) ;;
  author <- lift (getitem result (lit "user")) ;;
  user_url <- lift (getitem author (lit "html_url")) ;;
  let contributors := dict_set user user_url (contributors st) in
  let c := counter_incr (tally st) user in
  print (PrintRow title url body user user_url) ;;
  ret {| contributors := contributors; tally := c; total := total st + 1 |}.

Fixpoint generateTable_loop (limit : limit_value) (results : list json)
         (st : pass) : M pass :=
  match results with
  | [] => ret st
  | result :: rest =>
      st' <- generateTable_step limit result st ;;
      generateTable_loop limit rest st'
  end.

Definition generateTable (output : json) (p : params) (limit : limit_value)
           (c : Counter) : M (list (pystr * json) * Counter) :=
  let st := {| contributors := []; tally := c; total := 0 |} in
  let label := display_label (labels p) in
  print (Println (LF :: lit "## " ++ label ++ lit " Updates")) ;;
  print (Println intro) ;;
  results <- lift (iter output) ;;
  st <- generateTable_loop limit results st ;;
  returned <- lift (len output) ;;
  print (Println (total_line (total st) returned)) ;;
  ret (contributors st, tally st).

Fixpoint main_loop (fetch : params -> json) (since : pystr)
         (limit : limit_value) (label_list : list pystr) : M unit :=
  match label_list with
  | [] => ret tt
  | label :: rest =>
      let p := {| labels := label; state := lit "closed"; since := since |} in
      let this_counter : Counter := [] in
      r <- generateTable (fetch p) p limit this_counter ;;
      let (contributors, this_counter) := r in
      generateList contributors this_counter label ;;
      main_loop fetch since limit rest
  end.

Definition main (fetch : params -> json) (repo since : pystr)
           (limit : limit_value) (label_list : list pystr) : M unit :=
  print (PrintBanner repo label_list) ;;
  main_loop fetch since limit label_list.

End Cli.

(** What the block under [if __name__ == "__main__"] prints: what the
    functions print, and the line that lists the labels. *)
Inductive script_event : Type :=
| Printed (e : event)
| PrintLabels (label_list : list pystr).

(** The truth value of [args.all]. *)
Definition labels_all (args : arguments) : bool :=
  match arg_all args with
  | None => false
  | Some s => negb (length s =? 0)
  end.

Definition url_issues (repo : pystr) : pystr :=
  lit "https://api.github.com/repos/" ++ repo ++ lit "/issues".

Definition url_labels (repo : pystr) : pystr :=
  lit "https://api.github.com/repos/" ++ repo ++ lit "/labels".

(** The block under [if __name__ == "__main__"], after [parse_args].
    [get url query] is the parsed body of the response to
    [requests.get(url, params=query)]. *)
Definition script (get : pystr -> option params -> json) (args : arguments)
  : list script_event * res unit :=
  let repo := arg_repo args in
  let labels_check := arg_list args in
  let fetched :=
    if labels_check || labels_all args
    then getLabels (get (url_labels repo) None)
    else ret (arg_labels args) in
  match fetched with
  | (out, Raise e) => (map Printed out, Raise e)
  | (out, Ok label_list) =>
      if labels_check then
        (map Printed out
           ++ [PrintLabels label_list;
               Printed (Println (lit "Don't use --list next time if you want your issues outputs."))],
         Ok tt)
      else
        let (out', r) :=
          Cli.main (fun p => get (url_issues repo) (Some p)) repo
                   (arg_since args) (arg_limit args) label_list in
        (map Printed (out ++ out'), r)
  end.

(** ** Sample data *)

Definition issue (title url : pystr) (body : json) (login profile : pystr)
  : json :=
  JDict [(lit "title", JStr title); (lit "html_url", JStr url);
         (lit "body", body);
         (lit "user", JDict [(lit "login", JStr login);
                             (lit "html_url", JStr profile)])].

Definition bug_params : params :=
  {| labels := lit "bug"; state := lit "closed"; since := lit "2017-05-01" |}.

Unset Implicit Arguments.

(** * Notions used in the statements *)

(** A word is a non-empty run of characters none of which is whitespace. *)
Definition nonspace (w : pystr) : Prop := Forall (fun c => isspace c = false) w.
Definition is_word (w : pystr) : Prop := w <> [] /\ nonspace w.

(** What one turn of the loop of [bodyBreaker] appends. *)
Definition spaced (width : nat) (word : pystr) : pystr :=
  break_word width word ++ [SPACE].

(** The fields the loop body reads from an issue. *)
Record issue_fields (result : json) (title : pystr) (url : json)
       (body : pystr) (user : pystr) (user_url : json) : Prop :=
  { field_title : getitem result (lit "title") = Ok (JStr title);
    field_url : getitem result (lit "html_url") = Ok url;
    field_body : getitem result (lit "body") = Ok (JStr body);
    field_user : exists author,
        getitem result (lit "user") = Ok author /\
        getitem author (lit "login") = Ok (JStr user) /\
        getitem author (lit "html_url") = Ok user_url }.

(** The title cell of a row. *)
Definition title_cell (title : pystr) : pystr :=
  bodyBreaker (replace_char CR [] (replace_char LF [SPACE] title)) 25.

(** The summary cell of a row, before and after the sanitizer. *)
Definition cleaned (body : pystr) : pystr :=
  replace_char BACKTICK []
    (replace_char CR [] (replace_char LF [SPACE] body)).

Definition trimmed_body (limit : Z) (body : pystr) : pystr :=
  cleaned (slice_to limit body).

Definition marked_body (limit : Z) (body : pystr) : pystr :=
  if (limit <? Z.of_nat (length body))%Z
  then trimmed_body limit body ++ lit "..."
  else trimmed_body limit body.

Definition body_cell (limit : Z) (body : pystr) : pystr :=
  let cell := bodyBreaker (marked_body limit body) 50 in
  if length cell =? 0 then lit "n/a" else cell.

(** The state of the pass after one more issue by [user]. *)
Definition after_issue (st : pass) (user : pystr) (user_url : json) : pass :=
  {| contributors := dict_set user user_url (contributors st);
     tally := counter_incr (tally st) user;
     total := total st + 1 |}.

(** The fields of an issue that a row is made of. *)
Record row : Type :=
  { row_title : pystr; row_url : json; row_body : pystr;
    row_user : pystr; row_user_url : json }.

Definition has_fields (result : json) (r : row) : Prop :=
  issue_fields result (row_title r) (row_url r) (row_body r)
               (row_user r) (row_user_url r).

Definition row_event (limit : Z) (r : row) : event :=
  PrintRow (title_cell (row_title r)) (row_url r)
           (body_cell limit (row_body r)) (row_user r) (row_user_url r).

Definition after_rows (st : pass) (rows : list row) : pass :=
  fold_left (fun st r => after_issue st (row_user r) (row_user_url r)) rows st.

(** The section heading: [print("\n## {} Updates".format(label))]. *)
Definition heading (p : params) : event :=
  Println (LF :: lit "## " ++ display_label (labels p) ++ lit " Updates").

(** How many of the rows are by [u]. *)
Definition issues_by (u : pystr) (rows : list row) : nat :=
  length (filter (fun r => str_eqb (row_user r) u) rows).

(** The response of the service for a repository that does not exist. *)
Definition not_found_response : json :=
  JDict [(lit "message", JStr (lit "Not Found"));
         (lit "documentation_url",
          JStr (lit "https://developer.github.com/v3"))].

(** The state in which a pass with a fresh counter starts. *)
Definition empty_pass : pass :=
  {| contributors := []; tally := []; total := 0 |}.

(** What the claim describes: each carriage return and each newline
    becomes a space. *)
Definition line_breaks_to_spaces (title : pystr) : pystr :=
  map (fun c => if char_eqb c CR || char_eqb c LF then SPACE else c) title.

(** What the two [replace] calls do: a newline becomes a space, a carriage
    return is dropped. *)
Definition line_breaks_removed (title : pystr) : pystr :=
  flat_map (fun c => if char_eqb c LF then [SPACE]
                     else if char_eqb c CR then [] else [c]) title.

(** The profile URL of the last issue by [u], when there is one. *)
Definition last_url (u : pystr) (rows : list row) : option json :=
  fold_left (fun found r => if str_eqb (row_user r) u
                            then Some (row_user_url r) else found)
            rows None.

(** The directory after one upsert per row, in order. *)
Definition upserts (rows : list row) (d : list (pystr * json))
  : list (pystr * json) :=
  fold_left (fun d r => dict_set (row_user r) (row_user_url r) d) rows d.

(** A response with three issues, two of them by alice; the second has an
    empty body. *)
Definition sample_response : json :=
  JList [issue (lit "Fix build") (lit "https://github.com/o/r/issues/1")
               (JStr (lit "the `make` target fails")) (lit "alice")
               (lit "https://github.com/alice");
         issue (lit "Typo") (lit "https://github.com/o/r/issues/2")
               (JStr []) (lit "bob") (lit "https://github.com/bob");
         issue (lit "Crash on start") (lit "https://github.com/o/r/issues/3")
               (JStr (lit "segfault")) (lit "alice")
               (lit "https://github.com/alice")].

Definition sample_rows : list row :=
  [{| row_title := lit "Fix build";
      row_url := JStr (lit "https://github.com/o/r/issues/1");
      row_body := lit "the `make` target fails";
      row_user := lit "alice";
      row_user_url := JStr (lit "https://github.com/alice") |};
   {| row_title := lit "Typo";
      row_url := JStr (lit "https://github.com/o/r/issues/2");
      row_body := [];
      row_user := lit "bob";
      row_user_url := JStr (lit "https://github.com/bob") |};
   {| row_title := lit "Crash on start";
      row_url := JStr (lit "https://github.com/o/r/issues/3");
      row_body := lit "segfault";
      row_user := lit "alice";
      row_user_url := JStr (lit "https://github.com/alice") |}].

Definition sample_out : list event :=
  heading bug_params :: Println intro :: map (row_event 180) sample_rows
    ++ [Println (lit "Total of 3 out of 3" ++ [LF])].

Definition sample_dir : list (pystr * json) :=
  [(lit "alice", JStr (lit "https://github.com/alice"));
   (lit "bob", JStr (lit "https://github.com/bob"))].

Definition sample_tally : Counter := [(lit "alice", 2%Z); (lit "bob", 1%Z)].

(** [x] may stand before [y]: its count is not smaller. *)
Definition desc (x y : pystr * Z) : Prop := (snd y <= snd x)%Z.

(** The items whose count is [n], in the order of the list. *)
Definition with_count (n : Z) (l : list (pystr * Z)) : list (pystr * Z) :=
  filter (fun y => (snd y =? n)%Z) l.

(** The link that [generateList] prints for a ranked item. *)
Definition url_of (dir : list (pystr * json)) (user : pystr) : json :=
  match lookup user dir with
  | Some url => url
  | None => JNull
  end.

Definition link_event (dir : list (pystr * json)) (item : pystr * Z) : event :=
  PrintLink (fst item) (url_of dir (fst item)).

(** [print("\n### {} Contributors\n".format(label))] *)
Definition list_heading (label : pystr) : event :=
  Println (LF :: lit "### " ++ display_label label ++ lit " Contributors"
              ++ [LF]).

(** The contributors of the tally alice 3, bob 5, carol 3. *)
Definition alice : pystr := lit "alice".
Definition bob : pystr := lit "bob".
Definition carol : pystr := lit "carol".

Definition profile (user : pystr) : pystr := lit "https://github.com/" ++ user.

Definition issue_by (user : pystr) : json :=
  issue (lit "t") (lit "u") (JStr (lit "d")) user (profile user).

(** Eleven issues; alice is seen first, then bob, then carol. *)
Definition tie_response : json :=
  JList (map issue_by [alice; bob; carol; alice; bob; carol;
                       alice; bob; carol; bob; bob]).

Definition tie_tally : Counter := [(alice, 3%Z); (bob, 5%Z); (carol, 3%Z)].

Definition tie_dir : list (pystr * json) :=
  [(alice, JStr (profile alice)); (bob, JStr (profile bob));
   (carol, JStr (profile carol))].

(** What the claim describes: larger counts first, equal counts in the
    order in which the contributors were first seen. *)
Definition ranked_first_seen (c : Counter) : list (pystr * Z) := sorted_desc c.

(** A table that is less than two thirds full, as [PyDict_SetItem] keeps
    it. *)
Definition roomy (t : PyDict.table) : Prop :=
  length (PyDict.entries t) * 3 < length t * 2.

(** The query [main] sends for a label, and what one turn of its loop
    prints when the response holds well-formed issues. *)
Definition label_params (label since : pystr) : params :=
  {| labels := label; state := lit "closed"; since := since |}.

Definition section_tally (rows : list row) : Counter :=
  tally (after_rows empty_pass rows).

Definition section_events (label since : pystr) (limit : Z)
           (results : list json) (rows : list row) : list event :=
  heading (label_params label since) :: Println intro
    :: map (row_event limit) rows
    ++ Println (total_line (length rows) (length results))
    :: list_heading label
    :: map (link_event (upserts rows [])) (most_common (section_tally rows))
    ++ [Println [LF]].

(** A cell that does not break the table: its only whitespace is the
    plain space, and none of its tokens is longer than [width]. *)
Definition tidy_cell (width : nat) (cell : pystr) : Prop :=
  (forall ch, In ch cell -> isspace ch = true -> ch = SPACE) /\
  Forall (fun t => length t <= width) (split cell).

(** [sum(c.values())] *)
Definition counter_total (c : Counter) : Z :=
  fold_right (fun item s => (snd item + s)%Z) 0%Z c.

(** Two command lines: a limit given, and [--all] given. *)
Definition limit_given : arguments :=
  {| arg_repo := lit "o/r"; arg_since := lit "2017-05-01";
     arg_limit := StrLimit (lit "100"); arg_list := false;
     arg_labels := [lit "bug"]; arg_all := None;
     arg_message := lit "thanks" |}.

Definition all_given : arguments :=
  {| arg_repo := lit "o/r"; arg_since := lit "2017-05-01";
     arg_limit := IntLimit 180; arg_list := false;
     arg_labels := [lit "bug"]; arg_all := Some (lit "yes");
     arg_message := lit "thanks" |}.

(** * Properties *)

(** ** Strings and [split] *)

Section TextFacts.

Lemma str_eqb_refl (s : pystr) : str_eqb s s = true.
Proof.
  induction s as [|c s IH]; simpl; [reflexivity|].
  unfold char_eqb. now rewrite N.eqb_refl, IH.
Qed.

Lemma str_eqb_eq (a b : pystr) : str_eqb a b = true <-> a = b.
Proof.
  split; [|intros ->; apply str_eqb_refl].
  revert b; induction a as [|x a IH]; intros [|y b]; simpl; try discriminate; auto.
  unfold char_eqb. intros H. apply andb_true_iff in H as [Hx Hab].
  apply N.eqb_eq in Hx. f_equal; auto.
Qed.

Lemma str_eqb_neq (a b : pystr) : str_eqb a b = false <-> a <> b.
Proof.
  split.
  - intros H E. apply str_eqb_eq in E. congruence.
  - intros H. destruct (str_eqb a b) eqn:E; [|reflexivity].
    apply str_eqb_eq in E. contradiction.
Qed.

Lemma nonspace_firstn (n : nat) (w : pystr) :
  nonspace w -> nonspace (firstn n w).
Proof.
  intros H. revert n. induction H as [|c w Hc Hw IH]; intros [|n]; simpl;
    constructor; [assumption|apply IH].
Qed.

Lemma scan_words (s : pystr) :
  nonspace (fst (scan s)) /\ Forall is_word (snd (scan s)).
Proof.
  induction s as [|c s [Hw Hws]]; simpl.
  - split; constructor.
  - destruct (scan s) as [w ws]; simpl in *.
    destruct (isspace c) eqn:Ec; simpl.
    + split; [constructor|].
      destruct w; simpl; [assumption|].
      constructor; [split; [discriminate|assumption]|assumption].
    + split; [constructor; assumption|assumption].
Qed.

Lemma split_words (s : pystr) : Forall is_word (split s).
Proof.
  unfold split. destruct (scan_words s) as [Hw Hws].
  destruct (scan s) as [w ws]; simpl in *.
  destruct w; simpl; [assumption|].
  constructor; [split; [discriminate|assumption]|assumption].
Qed.

Lemma scan_app_word (w s : pystr) :
  nonspace w -> scan (w ++ s) = (w ++ fst (scan s), snd (scan s)).
Proof.
  induction 1 as [|c w Hc Hw IH]; simpl.
  - now destruct (scan s).
  - rewrite IH, Hc. reflexivity.
Qed.

Lemma scan_space (c : char) (s : pystr) :
  isspace c = true -> scan (c :: s) = ([], split s).
Proof.
  intros Hc. simpl. unfold split. destruct (scan s) as [w ws].
  now rewrite Hc.
Qed.

Lemma split_word_sep (w : pystr) (c : char) (s : pystr) :
  is_word w -> isspace c = true -> split (w ++ c :: s) = w :: split s.
Proof.
  intros [Hne Hw] Hc. unfold split at 1.
  rewrite scan_app_word by exact Hw. rewrite scan_space by exact Hc. simpl.
  rewrite app_nil_r. destruct w; [contradiction|reflexivity].
Qed.

Lemma split_join (ws : list pystr) :
  Forall is_word ws ->
  split (concat (map (fun w => w ++ [SPACE]) ws)) = ws.
Proof.
  induction 1 as [|w ws Hw Hws IH]; simpl; [reflexivity|].
  rewrite <- app_assoc. simpl.
  rewrite split_word_sep by (assumption || reflexivity).
  now rewrite IH.
Qed.

(** The last word of a text that ends in a word [m] ends in [m]. *)
Lemma split_app_word (p m : pystr) :
  is_word m -> exists init t, split (p ++ m) = init ++ [t ++ m].
Proof.
  intros [Hne Hm].
  assert (H : (snd (scan (p ++ m)) = [] /\ exists t, fst (scan (p ++ m)) = t ++ m)
              \/ exists init t, snd (scan (p ++ m)) = init ++ [t ++ m]).
  { induction p as [|c p IH]; simpl.
    - left. assert (E : scan m = (m, [])).
      { rewrite <- (app_nil_r m) at 1.
        rewrite scan_app_word by exact Hm. simpl. now rewrite app_nil_r. }
      rewrite E. simpl. split; [reflexivity|]. now exists [].
    - destruct (scan (p ++ m)) as [w ws]; simpl in *.
      destruct (isspace c); simpl.
      + right. destruct IH as [[-> [t ->]]|[init [t ->]]].
        * exists [], t. destruct (t ++ m) eqn:E; [|reflexivity].
          apply app_eq_nil in E as [_ E]. contradiction.
        * destruct w; simpl; [now exists init, t|].
          now exists ((c0 :: w) :: init), t.
      + destruct IH as [[-> [t ->]]|[init [t ->]]].
        * left. split; [reflexivity|]. now exists (c :: t).
        * right. now exists init, t. }
  unfold split. destruct (scan (p ++ m)) as [w ws]; simpl in *.
  destruct H as [[-> [t ->]]|[init [t ->]]].
  - exists [], t. destruct (t ++ m) eqn:E; [|reflexivity].
    apply app_eq_nil in E as [_ E]. contradiction.
  - destruct w; simpl; [now exists init, t|].
    now exists ((c :: w) :: init), t.
Qed.


Lemma endswith_inv (s m : pystr) :
  endswith s m = true -> exists p, s = p ++ m.
Proof.
  unfold endswith. intros H. apply andb_true_iff in H as [H _].
  apply str_eqb_eq in H. exists (firstn (length s - length m) s).
  remember (length s - length m) as n eqn:En. clear En.
  subst m. symmetry. apply firstn_skipn.
Qed.

End TextFacts.

(** ** The sanitizer *)

Section Sanitizer.

Lemma fold_left_append (A : Type) (f : A -> pystr) (l : list A) (acc : pystr) :
  fold_left (fun body x => body ++ f x) l acc = acc ++ concat (map f l).
Proof.
  revert acc; induction l as [|x l IH]; intros acc; simpl.
  - now rewrite app_nil_r.
  - now rewrite IH, app_assoc.
Qed.

(** The loop of [bodyBreaker] writes each part, cut to the width, followed
    by one space. *)
Lemma bodyBreaker_concat (body : pystr) (width : nat) :
  bodyBreaker body width = concat (map (spaced width) (split body)).
Proof.
  unfold bodyBreaker. apply (fold_left_append _ (spaced width)).
Qed.

Lemma break_word_short (width : nat) (word : pystr) :
  length word <= width -> break_word width word = word.
Proof.
  intros H. unfold break_word.
  destruct (width <? length word) eqn:E; [|reflexivity].
  apply Nat.ltb_lt in E. lia.
Qed.

Lemma break_word_length (width : nat) (word : pystr) :
  length (break_word width word) <= width + 2.
Proof.
  unfold break_word. destruct (width <? length word) eqn:E.
  - rewrite length_app, length_firstn. simpl. lia.
  - apply Nat.ltb_ge in E. lia.
Qed.

Lemma break_word_is_word (width : nat) (word : pystr) :
  is_word word -> is_word (break_word width word).
Proof.
  intros [Hne Hw]. unfold break_word.
  destruct (width <? length word); [|now split].
  split.
  - intros E. apply app_eq_nil in E as [_ E]. discriminate.
  - apply Forall_app. split.
    + now apply nonspace_firstn.
    + repeat constructor.
Qed.

Lemma break_word_idem (width : nat) (word : pystr) :
  break_word width (break_word width word) = break_word width word.
Proof.
  destruct (width <? length word) eqn:E.
  - assert (Hb : break_word width word = firstn width word ++ lit "..")
      by (unfold break_word; now rewrite E).
    apply Nat.ltb_lt in E. rewrite Hb. unfold break_word.
    assert (L : length (firstn width word) = width)
      by (rewrite length_firstn; lia).
    rewrite length_app, L. simpl length.
    replace (width <? width + 2) with true by (symmetry; apply Nat.ltb_lt; lia).
    rewrite firstn_app, L, Nat.sub_diag. simpl firstn at 2.
    rewrite app_nil_r. f_equal.
    rewrite <- L at 1. apply firstn_all.
  - apply Nat.ltb_ge in E. rewrite (break_word_short width word E).
    now apply break_word_short.
Qed.

(** Splitting the sanitizer's output gives back the parts it wrote. *)
Lemma split_bodyBreaker (body : pystr) (width : nat) :
  split (bodyBreaker body width) = map (break_word width) (split body).
Proof.
  rewrite bodyBreaker_concat. unfold spaced.
  rewrite <- (map_map (break_word width) (fun w => w ++ [SPACE])).
  apply split_join.
  apply Forall_map. eapply Forall_impl; [|apply split_words].
  intros w. apply break_word_is_word.
Qed.

Lemma bodyBreaker_idem (body : pystr) (width : nat) :
  bodyBreaker (bodyBreaker body width) width = bodyBreaker body width.
Proof.
  rewrite (bodyBreaker_concat (bodyBreaker body width)), split_bodyBreaker.
  rewrite bodyBreaker_concat, map_map. f_equal.
  apply map_ext. intros w. unfold spaced. now rewrite break_word_idem.
Qed.

Lemma bodyBreaker_short (body : pystr) (width : nat) :
  Forall (fun t => length t <= width) (split body) ->
  bodyBreaker body width = concat (map (fun t => t ++ [SPACE]) (split body)).
Proof.
  intros H. rewrite bodyBreaker_concat. f_equal.
  apply map_ext_in. intros t Ht. unfold spaced.
  rewrite Forall_forall in H. now rewrite break_word_short by auto.
Qed.

End Sanitizer.

(** ** The output-and-exception monad *)

Section MonadFacts.

Context {A B : Type}.

Lemma bind_lift_ok (a : A) (f : A -> M B) : bind (lift (Ok a)) f = f a.
Proof. unfold bind, lift. now destruct (f a). Qed.

Lemma bind_lift_raise (e : exn) (f : A -> M B) :
  bind (lift (Raise e)) f = ([], Raise e).
Proof. reflexivity. Qed.

Lemma bind_ok_inv (m : M A) (f : A -> M B) (out : list event) (b : B) :
  bind m f = (out, Ok b) ->
  exists out1 a out2, m = (out1, Ok a) /\ f a = (out2, Ok b) /\ out = out1 ++ out2.
Proof.
  unfold bind. destruct m as [out1 [a|e]]; [|discriminate].
  destruct (f a) as [out2 r] eqn:E. intros H. inversion H; subst.
  now exists out1, a, out2.
Qed.

Lemma bind_lift_inv (r : res A) (f : A -> M B) (out : list event) (b : B) :
  bind (lift r) f = (out, Ok b) -> exists a, r = Ok a /\ f a = (out, Ok b).
Proof.
  intros H. apply bind_ok_inv in H as (out1 & a & out2 & H1 & H2 & ->).
  unfold lift in H1. inversion H1; subst. now exists a.
Qed.

End MonadFacts.

Lemma bind_print (B : Type) (e : event) (f : unit -> M B) :
  bind (print e) f = (e :: fst (f tt), snd (f tt)).
Proof. unfold bind, print. now destruct (f tt). Qed.

(** ** Dicts and counters *)

Section DictFacts.

Context {A : Type}.

Lemma lookup_dict_set_eq (k : pystr) (v : A) (d : list (pystr * A)) :
  lookup k (dict_set k v d) = Some v.
Proof.
  induction d as [|[k' v'] d IH]; simpl.
  - now rewrite str_eqb_refl.
  - destruct (str_eqb k' k) eqn:E; simpl; now rewrite E.
Qed.

Lemma lookup_dict_set_neq (k k0 : pystr) (v : A) (d : list (pystr * A)) :
  k0 <> k -> lookup k0 (dict_set k v d) = lookup k0 d.
Proof.
  intros Hne. induction d as [|[k' v'] d IH]; simpl.
  - replace (str_eqb k k0) with false; [reflexivity|].
    symmetry. apply str_eqb_neq. congruence.
  - destruct (str_eqb k' k) eqn:E; simpl.
    + apply str_eqb_eq in E. subst k'.
      replace (str_eqb k k0) with false; [reflexivity|].
      symmetry. apply str_eqb_neq. congruence.
    + now rewrite IH.
Qed.

(** Storing the value a key already has changes nothing. *)
Lemma dict_set_same (k : pystr) (v : A) (d : list (pystr * A)) :
  lookup k d = Some v -> dict_set k v d = d.
Proof.
  induction d as [|[k' v'] d IH]; simpl; [discriminate|].
  destruct (str_eqb k' k) eqn:E.
  - intros H. inversion H. reflexivity.
  - intros H. now rewrite IH.
Qed.

(** An upsert keeps the keys in place and adds a new key at the end. *)
Lemma dict_set_keys (k : pystr) (v : A) (d : list (pystr * A)) :
  map fst (dict_set k v d) =
  match lookup k d with
  | Some _ => map fst d
  | None => map fst d ++ [k]
  end.
Proof.
  induction d as [|[k' v'] d IH]; simpl; [reflexivity|].
  destruct (str_eqb k' k) eqn:E; simpl; [reflexivity|].
  rewrite IH. now destruct (lookup k d).
Qed.

End DictFacts.

Lemma counter_incr_same (c : Counter) (u : pystr) :
  counter_get (counter_incr c u) u = (counter_get c u + 1)%Z.
Proof.
  unfold counter_incr. unfold counter_get at 1.
  now rewrite lookup_dict_set_eq.
Qed.

Lemma counter_incr_other (c : Counter) (u v : pystr) :
  v <> u -> counter_get (counter_incr c u) v = counter_get c v.
Proof.
  intros H. unfold counter_incr. unfold counter_get at 1 3.
  now rewrite lookup_dict_set_neq.
Qed.

(** ** One issue of [generateTable] *)

Lemma generateTable_step_ok (limit : Z) (result : json) (st : pass)
      (title : pystr) (url : json) (body : pystr) (user : pystr)
      (user_url : json) :
  issue_fields result title url body user user_url ->
  generateTable_step limit result st =
  ([PrintRow (title_cell title) url (body_cell limit body) user user_url],
   Ok (after_issue st user user_url)).
Proof.
  intros [Ht Hu Hb (author & Ha & Hl & Hp)].
  unfold generateTable_step.
  rewrite Ht, bind_lift_ok. cbn [encode]. rewrite bind_lift_ok.
  rewrite Hu, bind_lift_ok, Hb, bind_lift_ok.
  cbn [getslice]. rewrite bind_lift_ok. cbn [encode]. rewrite !bind_lift_ok.
  cbn [len]. rewrite bind_lift_ok.
  rewrite Ha, bind_lift_ok, Hl, bind_lift_ok. cbn [encode].
  rewrite !bind_lift_ok, Hp, bind_lift_ok.
  reflexivity.
Qed.

Lemma generateTable_step_inv (limit : Z) (result : json) (st st' : pass)
      (out : list event) :
  generateTable_step limit result st = (out, Ok st') ->
  exists title url body user user_url,
    issue_fields result title url body user user_url.
Proof.
  unfold generateTable_step. intros H.
  apply bind_lift_inv in H as (t0 & Ht & H).
  apply bind_lift_inv in H as (title & Ht' & H).
  apply bind_lift_inv in H as (url & Hu & H).
  apply bind_lift_inv in H as (b0 & Hb & H).
  apply bind_lift_inv in H as (b1 & Hs & H).
  apply bind_lift_inv in H as (b2 & He & H).
  apply bind_lift_inv in H as (raw & Hraw & H).
  apply bind_lift_inv in H as (n & Hn & H).
  apply bind_lift_inv in H as (author & Ha & H).
  apply bind_lift_inv in H as (login & Hl & H).
  apply bind_lift_inv in H as (user & Hu' & H).
  apply bind_lift_inv in H as (author' & Ha' & H).
  apply bind_lift_inv in H as (user_url & Hp & H).
  rewrite Ha in Ha'. inversion Ha'; subst author'.
  destruct t0; try discriminate. inversion Ht'; subst.
  destruct login; try discriminate. inversion Hu'; subst.
  destruct b0; try discriminate; cbn [getslice] in Hs; inversion Hs; subst;
    try discriminate.
  exists title, url, s, user, user_url.
  split; auto. exists author. auto.
Qed.

(** ** A whole pass of [generateTable] *)

Lemma generateTable_loop_ok (limit : Z) (results : list json)
      (rows : list row) :
  Forall2 has_fields results rows ->
  forall st, generateTable_loop limit results st =
             (map (row_event limit) rows, Ok (after_rows st rows)).
Proof.
  induction 1 as [|result r results rows Hr _ IH]; intros st; simpl.
  - reflexivity.
  - rewrite (generateTable_step_ok limit result st _ _ _ _ _ Hr).
    unfold bind. rewrite IH. reflexivity.
Qed.

Lemma generateTable_loop_inv (limit : Z) (results : list json) :
  forall st out st',
    generateTable_loop limit results st = (out, Ok st') ->
    exists rows, Forall2 has_fields results rows.
Proof.
  induction results as [|result results IH]; intros st out st' H.
  - exists []. constructor.
  - simpl in H. apply bind_ok_inv in H as (o1 & st1 & o2 & H1 & H2 & _).
    apply generateTable_step_inv in H1 as (t & u & b & l & p & Hf).
    apply IH in H2 as [rows Hrows].
    exists ({| row_title := t; row_url := u; row_body := b;
               row_user := l; row_user_url := p |} :: rows).
    constructor; assumption.
Qed.

Lemma iter_len (output : json) (results : list json) :
  iter output = Ok results -> len output = Ok (length results).
Proof.
  destruct output; simpl; intros H; inversion H; subst;
    now rewrite ?length_map.
Qed.

Lemma after_rows_cons (st : pass) (r : row) (rows : list row) :
  after_rows st (r :: rows) =
  after_rows (after_issue st (row_user r) (row_user_url r)) rows.
Proof. reflexivity. Qed.

Lemma after_rows_total (rows : list row) (st : pass) :
  total (after_rows st rows) = total st + length rows.
Proof.
  revert st; induction rows as [|r rows IH]; intros st.
  - simpl. lia.
  - rewrite after_rows_cons, IH. simpl. lia.
Qed.

Lemma after_rows_tally (rows : list row) (st : pass) (u : pystr) :
  counter_get (tally (after_rows st rows)) u =
  (counter_get (tally st) u + Z.of_nat (issues_by u rows))%Z.
Proof.
  revert st; induction rows as [|r rows IH]; intros st.
  - unfold issues_by. simpl. lia.
  - rewrite after_rows_cons, IH. simpl tally.
    unfold issues_by. simpl filter.
    destruct (str_eqb (row_user r) u) eqn:E.
    + apply str_eqb_eq in E. subst u. rewrite counter_incr_same.
      simpl length. lia.
    + apply str_eqb_neq in E. rewrite counter_incr_other by congruence. lia.
Qed.

Lemma after_rows_contributors (rows : list row) (st : pass) :
  contributors (after_rows st rows) =
  fold_left (fun d r => dict_set (row_user r) (row_user_url r) d)
            rows (contributors st).
Proof.
  revert st; induction rows as [|r rows IH]; intros st; [reflexivity|].
  now rewrite after_rows_cons, IH.
Qed.

(** A response whose every element has the fields of an issue is rendered
    to the end: the heading, the table header, one row per issue and the
    count line. *)
Lemma generateTable_ok (output : json) (p : params) (limit : Z) (c : Counter)
      (results : list json) (rows : list row) :
  iter output = Ok results ->
  Forall2 has_fields results rows ->
  let st := after_rows {| contributors := []; tally := c; total := 0 |} rows in
  generateTable output p limit c =
  (heading p :: Println intro :: map (row_event limit) rows
     ++ [Println (total_line (length rows) (length results))],
   Ok (contributors st, tally st)).
Proof.
  intros Hiter Hrows st. unfold generateTable.
  rewrite !bind_print. cbn [fst snd].
  rewrite Hiter, bind_lift_ok.
  rewrite (generateTable_loop_ok limit _ _ Hrows). unfold bind at 1.
  rewrite (iter_len _ _ Hiter), bind_lift_ok, bind_print.
  cbn [fst snd ret]. fold st.
  replace (total st) with (length rows)
    by (unfold st; now rewrite after_rows_total).
  reflexivity.
Qed.

Lemma generateTable_inv (output : json) (p : params) (limit : Z) (c : Counter)
      (out : list event) (dir : list (pystr * json)) (c' : Counter) :
  generateTable output p limit c = (out, Ok (dir, c')) ->
  exists results rows,
    iter output = Ok results /\ Forall2 has_fields results rows.
Proof.
  unfold generateTable. rewrite !bind_print. cbn [fst snd].
  intros H.
  destruct (bind (lift (iter output)) _) as [o r] eqn:E.
  cbn [fst snd] in H. inversion H; subst. clear H.
  apply bind_lift_inv in E as (results & Hiter & E).
  apply bind_ok_inv in E as (o1 & st & o2 & Hloop & _ & _).
  apply generateTable_loop_inv in Hloop as [rows Hrows].
  now exists results, rows.
Qed.

(** ** Claims about the sanitizer *)

(** C3, as the claim states it: at the one-word text [a] and width 5 every
    token is short, yet the sanitizer returns [a] followed by a space, not
    the text it was given. *)
Lemma bodyBreaker_changes_short_text :
  Forall (fun t => length t <= 5) (split (lit "a")) /\
  bodyBreaker (lit "a") 5 = lit "a " /\
  bodyBreaker (lit "a") 5 <> lit "a".
Proof.
  split; [|split].
  - repeat constructor.
  - reflexivity.
  - discriminate.
Qed.

(** C3, amended: when every whitespace-delimited token of a text is at most
    [W] long, the sanitizer at width [W] returns those tokens unchanged and
    in order, each followed by a single space (runs of whitespace collapse
    and a trailing space is added, so the text itself may change); applying
    the sanitizer twice equals applying it once. *)
Theorem bodyBreaker_short_tokens (s : pystr) (W : nat) :
  Forall (fun t => length t <= W) (split s) ->
  bodyBreaker s W = concat (map (fun t => t ++ [SPACE]) (split s)) /\
  split (bodyBreaker s W) = split s /\
  bodyBreaker (bodyBreaker s W) W = bodyBreaker s W.
Proof.
  intros H. split; [|split].
  - now apply bodyBreaker_short.
  - rewrite split_bodyBreaker. rewrite <- (map_id (split s)) at 2.
    apply map_ext_in. intros t Ht. rewrite Forall_forall in H.
    apply break_word_short. auto.
  - apply bodyBreaker_idem.
Qed.

Lemma bodyBreaker_short_tokens_witness :
  Forall (fun t => length t <= 7) (split (lit "fix   the parser")) /\
  (bodyBreaker (lit "fix   the parser") 7 =
     concat (map (fun t => t ++ [SPACE]) (split (lit "fix   the parser"))) /\
   split (bodyBreaker (lit "fix   the parser") 7) =
     split (lit "fix   the parser") /\
   bodyBreaker (bodyBreaker (lit "fix   the parser") 7) 7 =
     bodyBreaker (lit "fix   the parser") 7).
Proof.
  assert (H : Forall (fun t => length t <= 7) (split (lit "fix   the parser")))
    by (repeat constructor).
  split; [exact H|].
  exact (bodyBreaker_short_tokens (lit "fix   the parser") 7 H).
Defined.

(** C6: for every text [S] and width [W], every whitespace-delimited token
    of [bodyBreaker S W] is at most [W + 2] long; the tokens of the output
    are the tokens of [S] in order, each one unchanged when it is at most
    [W] long, so every such token of [S] appears in the output; and the
    empty text gives the empty text. *)
Theorem bodyBreaker_tokens (S : pystr) (W : nat) :
  Forall (fun u => length u <= W + 2) (split (bodyBreaker S W)) /\
  Forall2 (fun t u => length t <= W -> u = t)
          (split S) (split (bodyBreaker S W)) /\
  (forall t, In t (split S) -> length t <= W ->
             In t (split (bodyBreaker S W))) /\
  bodyBreaker [] W = [].
Proof.
  rewrite split_bodyBreaker. repeat split.
  - apply Forall_map. apply Forall_forall. intros t _.
    apply break_word_length.
  - induction (split S) as [|t ts IH]; simpl; constructor; [|exact IH].
    apply break_word_short.
  - intros t Hin Hlen. apply in_map_iff. exists t.
    split; [now apply break_word_short|assumption].
Qed.

(** ** Claims about [getLabels] *)

(** C2 (the code departs from the claim): a successful response is a JSON
    list, and [output['message']] on a list raises [TypeError] before any
    label is read. *)
Theorem getLabels_list_raises (results : list json) :
  getLabels (JList results) = ([], Raise TypeError).
Proof. reflexivity. Qed.

Example getLabels_one_label :
  getLabels (JList [JDict [(lit "name", JStr (lit "bug"))]])
  = ([], Raise TypeError).
Proof. reflexivity. Qed.

(** C10: when the response carries a top-level [message] equal to
    [Not Found], [getLabels] prints the not-found message and returns the
    empty list; nothing is raised. *)
Theorem getLabels_not_found (output : json) :
  getitem output (lit "message") = Ok (JStr (lit "Not Found")) ->
  getLabels output =
  ([Println (lit "That repo and/or label was not found.")], Ok []).
Proof.
  intros H. unfold getLabels. rewrite H, bind_lift_ok. reflexivity.
Qed.

Lemma getLabels_not_found_witness :
  getitem not_found_response (lit "message") = Ok (JStr (lit "Not Found")) /\
  getLabels not_found_response =
  ([Println (lit "That repo and/or label was not found.")], Ok []).
Proof.
  split; [reflexivity|].
  apply (getLabels_not_found not_found_response). reflexivity.
Defined.

(** ** Claims about [generateTable] *)

(** C9: a response with no issue gives the section heading and the table
    header, then at once the line [Total of 0 out of 0]; no row is
    printed, and the tally comes back as it was passed. *)
Theorem generateTable_no_issue (p : params) (limit : Z) (c : Counter) :
  generateTable (JList []) p limit c =
  ([heading p; Println intro; Println (lit "Total of 0 out of 0" ++ [LF])],
   Ok ([], c)).
Proof. reflexivity. Qed.

(** C1 (the code departs from the claim): an issue whose body is [null]
    ends the pass with [TypeError] at [result['body'][0:limit]], and one
    without a body with [KeyError]; no row, placeholder or count line is
    printed and the author's tally is not returned. *)
Theorem generateTable_null_body_raises
        (title url login profile : pystr) (rest : list json)
        (p : params) (limit : Z) (c : Counter) :
  generateTable (JList (issue title url JNull login profile :: rest))
                p limit c
  = ([heading p; Println intro], Raise TypeError) /\
  generateTable
    (JList (JDict [(lit "title", JStr title); (lit "html_url", JStr url);
                   (lit "user", JDict [(lit "login", JStr login);
                                       (lit "html_url", JStr profile)])]
              :: rest))
    p limit c
  = ([heading p; Println intro], Raise KeyError).
Proof. split; reflexivity. Qed.

Lemma issue_has_fields (title url body login profile : pystr) :
  issue_fields (issue title url (JStr body) login profile)
               title (JStr url) body login (JStr profile).
Proof.
  split; try reflexivity.
  exists (JDict [(lit "login", JStr login); (lit "html_url", JStr profile)]).
  repeat split; reflexivity.
Qed.

(** *** The title cell *)

Lemma replace_line_breaks (s : pystr) :
  replace_char CR [] (replace_char LF [SPACE] s) = line_breaks_removed s.
Proof.
  unfold replace_char, line_breaks_removed.
  induction s as [|c s IH]; simpl; [reflexivity|].
  destruct (char_eqb c LF); simpl; now rewrite IH.
Qed.

(** C5, as the claim states it: for the title [a], carriage return, [b] the
    row carries [ab] and a space, while replacing the carriage return with
    a space before the sanitizer gives [a b] and a space. *)
Lemma title_carriage_return_dropped :
  generateTable_step 180
    (issue (lit "a" ++ [CR] ++ lit "b") (lit "u") (JStr (lit "d"))
           (lit "alice") (lit "p")) empty_pass
  = ([PrintRow (lit "ab ") (JStr (lit "u")) (lit "d ") (lit "alice")
               (JStr (lit "p"))],
     Ok (after_issue empty_pass (lit "alice") (JStr (lit "p")))) /\
  bodyBreaker (line_breaks_to_spaces (lit "a" ++ [CR] ++ lit "b")) 25
  = lit "a b " /\
  lit "ab " <> lit "a b ".
Proof. repeat split. discriminate. Qed.

(** C5, amended: for every issue title, [generateTable] replaces every
    newline with a space and deletes every carriage return, and then
    applies the sanitizer at width 25; the title cell of the row is the
    result. *)
Theorem generateTable_title_cell (limit : Z) (result : json) (st : pass)
        (title : pystr) (url : json) (body : pystr) (user : pystr)
        (user_url : json) :
  issue_fields result title url body user user_url ->
  exists cell,
    fst (generateTable_step limit result st) =
      [PrintRow cell url (body_cell limit body) user user_url] /\
    cell = bodyBreaker (line_breaks_removed title) 25 /\
    ~ In LF (line_breaks_removed title) /\
    ~ In CR (line_breaks_removed title).
Proof.
  intros H. exists (title_cell title).
  rewrite (generateTable_step_ok limit result st _ _ _ _ _ H).
  split; [reflexivity|]. split.
  - unfold title_cell. now rewrite replace_line_breaks.
  - unfold line_breaks_removed.
    split; intros Hin; apply in_flat_map in Hin as (c & _ & Hc);
      (destruct (char_eqb c LF) eqn:E1; [|destruct (char_eqb c CR) eqn:E2]);
      simpl in Hc; intuition; try discriminate; subst c; discriminate.
Qed.

Lemma generateTable_title_cell_witness :
  exists cell,
    fst (generateTable_step 180
           (issue (lit "a" ++ [LF; CR] ++ lit "b") (lit "u") (JStr (lit "d"))
                  (lit "alice") (lit "p")) empty_pass) =
      [PrintRow cell (JStr (lit "u")) (body_cell 180 (lit "d"))
                (lit "alice") (JStr (lit "p"))] /\
    cell = bodyBreaker (line_breaks_removed (lit "a" ++ [LF; CR] ++ lit "b")) 25 /\
    ~ In LF (line_breaks_removed (lit "a" ++ [LF; CR] ++ lit "b")) /\
    ~ In CR (line_breaks_removed (lit "a" ++ [LF; CR] ++ lit "b")).
Proof.
  apply (generateTable_title_cell 180 _ empty_pass
           (lit "a" ++ [LF; CR] ++ lit "b") (JStr (lit "u")) (lit "d")
           (lit "alice") (JStr (lit "p"))).
  apply issue_has_fields.
Defined.

(** *** The summary cell *)

Lemma slice_to_all (limit : Z) (s : pystr) :
  (Z.of_nat (length s) <= limit)%Z -> slice_to limit s = s.
Proof.
  intros H. unfold slice_to.
  replace (0 <=? limit)%Z with true by (symmetry; apply Z.leb_le; lia).
  apply firstn_all2. lia.
Qed.

(** The sanitizer's output is empty or ends in the space written after the
    last part. *)
Lemma bodyBreaker_ends_space (body : pystr) (width : nat) :
  bodyBreaker body width = [] \/
  exists p, bodyBreaker body width = p ++ [SPACE].
Proof.
  rewrite bodyBreaker_concat.
  destruct (split body) as [|w ws] eqn:E; [now left|right].
  assert (Hne : w :: ws <> []) by discriminate.
  destruct (exists_last Hne) as (init & x & ->).
  rewrite map_app, concat_app. simpl. rewrite app_nil_r. unfold spaced.
  exists (concat (map (spaced width) init) ++ break_word width x).
  now rewrite app_assoc.
Qed.

Lemma endswith_space_dots (p : pystr) :
  endswith (p ++ [SPACE]) (lit "...") = false.
Proof.
  destruct (endswith (p ++ [SPACE]) (lit "...")) eqn:E; [|reflexivity].
  apply endswith_inv in E as [q E].
  change (lit "...") with (lit ".." ++ [46%N]) in E.
  rewrite app_assoc in E. apply app_inj_tail in E as [_ E]. discriminate.
Qed.

(** The marker does not survive a long last token: the sanitizer cuts the
    token, marker included, to 50 characters. *)
Example summary_marker_cut :
  body_cell 55 (repeat 120%N 60) = repeat 120%N 50 ++ lit ".. ".
Proof. reflexivity. Qed.

(** *** The tally, the directory and the count line *)

Lemma lookup_upserts (u : pystr) (rows : list row) (d : list (pystr * json)) :
  lookup u (upserts rows d) =
  fold_left (fun found r => if str_eqb (row_user r) u
                            then Some (row_user_url r) else found)
            rows (lookup u d).
Proof.
  revert d; induction rows as [|r rows IH]; intros d; simpl; [reflexivity|].
  unfold upserts in IH. rewrite IH. f_equal.
  destruct (str_eqb (row_user r) u) eqn:E.
  - apply str_eqb_eq in E. subst u. apply lookup_dict_set_eq.
  - apply str_eqb_neq in E. apply lookup_dict_set_neq. congruence.
Qed.

(** C7: in a pass that reaches its end, every element of the response is an
    issue and is rendered as one row; the returned tally of every
    contributor is the tally passed in plus the number of issues by that
    contributor (one increment per issue); the directory is the result of
    one upsert per issue, in order, so it maps a contributor to the profile
    URL of the last issue by them, and an upsert of the URL a contributor
    already has leaves the directory as it is; and the count line shows the
    number of issues twice. *)
Theorem generateTable_counts (output : json) (p : params) (limit : Z)
        (c : Counter) (out : list event) (dir : list (pystr * json))
        (c' : Counter) :
  generateTable output p limit c = (out, Ok (dir, c')) ->
  exists results rows,
    iter output = Ok results /\
    Forall2 has_fields results rows /\
    out = heading p :: Println intro :: map (row_event limit) rows
            ++ [Println (total_line (length results) (length results))] /\
    (forall u, counter_get c' u
               = (counter_get c u + Z.of_nat (issues_by u rows))%Z) /\
    dir = upserts rows [] /\
    (forall u, lookup u dir = last_url u rows) /\
    (forall (d : list (pystr * json)) u url,
        lookup u d = Some url -> dict_set u url d = d).
Proof.
  intros H.
  destruct (generateTable_inv _ _ _ _ _ _ _ H) as (results & rows & Hi & Hr).
  rewrite (generateTable_ok output p limit c results rows Hi Hr) in H.
  inversion H as [[Hout Hdir Hc]]. clear H.
  exists results, rows. repeat split; try assumption.
  - now rewrite (Forall2_length Hr).
  - intros u. apply after_rows_tally.
  - apply after_rows_contributors.
  - intros u. rewrite after_rows_contributors. apply lookup_upserts.
  - intros d u url. apply dict_set_same.
Qed.

Example sample_rows_rendered :
  map (row_event 180) sample_rows =
  [PrintRow (lit "Fix build ") (JStr (lit "https://github.com/o/r/issues/1"))
            (lit "the make target fails ") (lit "alice")
            (JStr (lit "https://github.com/alice"));
   PrintRow (lit "Typo ") (JStr (lit "https://github.com/o/r/issues/2"))
            (lit "n/a") (lit "bob") (JStr (lit "https://github.com/bob"));
   PrintRow (lit "Crash on start ")
            (JStr (lit "https://github.com/o/r/issues/3"))
            (lit "segfault ") (lit "alice")
            (JStr (lit "https://github.com/alice"))].
Proof. reflexivity. Qed.

Lemma generateTable_counts_witness :
  generateTable sample_response bug_params 180 []
  = (sample_out, Ok (sample_dir, sample_tally)) /\
  exists results rows,
    iter sample_response = Ok results /\
    Forall2 has_fields results rows /\
    sample_out = heading bug_params :: Println intro
                   :: map (row_event 180) rows
                   ++ [Println (total_line (length results) (length results))] /\
    (forall u, counter_get sample_tally u
               = (counter_get [] u + Z.of_nat (issues_by u rows))%Z) /\
    sample_dir = upserts rows [] /\
    (forall u, lookup u sample_dir = last_url u rows) /\
    (forall (d : list (pystr * json)) u url,
        lookup u d = Some url -> dict_set u url d = d).
Proof.
  assert (H : generateTable sample_response bug_params 180 []
              = (sample_out, Ok (sample_dir, sample_tally)))
    by (vm_compute; reflexivity).
  split; [exact H|].
  exact (generateTable_counts sample_response bug_params 180 []
           sample_out sample_dir sample_tally H).
Defined.

(** ** The ranker *)

Section Ranking.

(** The sort is stable and descending. *)

Lemma insert_desc_forall (P : pystr * Z -> Prop) (x : pystr * Z)
      (l : list (pystr * Z)) :
  P x -> Forall P l -> Forall P (insert_desc x l).
Proof.
  intros Hx Hl. induction Hl as [|y l Hy Hl IH]; simpl.
  - now constructor.
  - destruct (snd x <? snd y)%Z; repeat constructor; assumption.
Qed.

Lemma insert_desc_sorted (x : pystr * Z) (l : list (pystr * Z)) :
  StronglySorted desc l -> StronglySorted desc (insert_desc x l).
Proof.
  induction 1 as [|y l Hl IH Hy]; simpl.
  - repeat constructor.
  - destruct (snd x <? snd y)%Z eqn:E.
    + constructor; [assumption|].
      apply insert_desc_forall; [|assumption].
      apply Z.ltb_lt in E. unfold desc. lia.
    + apply Z.ltb_ge in E. constructor; [now constructor|].
      constructor; [exact E|].
      eapply Forall_impl; [|exact Hy]. unfold desc. intros z Hz. lia.
Qed.

Lemma sorted_desc_sorted (l : list (pystr * Z)) :
  StronglySorted desc (sorted_desc l).
Proof.
  induction l as [|x l IH]; simpl; [constructor|].
  now apply insert_desc_sorted.
Qed.

Lemma insert_desc_perm (x : pystr * Z) (l : list (pystr * Z)) :
  Permutation (insert_desc x l) (x :: l).
Proof.
  induction l as [|y l IH]; simpl; [reflexivity|].
  destruct (snd x <? snd y)%Z; [|reflexivity].
  rewrite IH. apply perm_swap.
Qed.

Lemma sorted_desc_perm (l : list (pystr * Z)) : Permutation (sorted_desc l) l.
Proof.
  induction l as [|x l IH]; simpl; [reflexivity|].
  rewrite insert_desc_perm. now constructor.
Qed.

Lemma insert_desc_stable (n : Z) (x : pystr * Z) (l : list (pystr * Z)) :
  with_count n (insert_desc x l) = with_count n (x :: l).
Proof.
  unfold with_count. induction l as [|y l IH]; simpl; [reflexivity|].
  destruct (snd x <? snd y)%Z eqn:E; [|reflexivity].
  simpl. rewrite IH. simpl.
  destruct (snd x =? n)%Z eqn:Ex; [|reflexivity].
  destruct (snd y =? n)%Z eqn:Ey; [|reflexivity].
  apply Z.eqb_eq in Ex, Ey. apply Z.ltb_lt in E. lia.
Qed.

Lemma sorted_desc_stable (n : Z) (l : list (pystr * Z)) :
  with_count n (sorted_desc l) = with_count n l.
Proof.
  induction l as [|x l IH]; simpl; [reflexivity|].
  rewrite insert_desc_stable. unfold with_count in *. simpl. now rewrite IH.
Qed.

End Ranking.

Lemma generateList_loop_ok (dir : list (pystr * json))
      (ranked : list (pystr * Z)) :
  (forall u, In u (map fst ranked) -> lookup u dir <> None) ->
  generateList_loop dir ranked = (map (link_event dir) ranked, Ok tt).
Proof.
  induction ranked as [|[user n] ranked IH]; intros H; [reflexivity|].
  cbn [generateList_loop map]. unfold link_event at 1, url_of, getitem.
  cbn [fst].
  destruct (lookup user dir) as [url|] eqn:E.
  - rewrite bind_lift_ok, bind_print. rewrite IH; [reflexivity|].
    intros u Hu. apply H. now right.
  - exfalso. apply (H user); [now left|exact E].
Qed.

Lemma generateList_ok (dir : list (pystr * json)) (c : Counter)
      (label : pystr) :
  (forall u, In u (map fst (most_common c)) -> lookup u dir <> None) ->
  generateList dir c label =
  (list_heading label :: map (link_event dir) (most_common c)
     ++ [Println [LF]], Ok tt).
Proof.
  intros H. unfold generateList. rewrite bind_print. cbn [fst snd].
  rewrite (generateList_loop_ok dir _ H). reflexivity.
Qed.

(** *** The tally of the claim: alice 3, bob 5, carol 3 *)

(** The hash CPython 2.7 gives a one-letter string, and the order in which
    it iterates the dict with keys [a], [b], [c]. *)
Example string_hash_a : PyDict.string_hash (PyDict.utf8 (lit "a")) = 12416037344%N.
Proof. reflexivity. Qed.

Example iteration_order_abc :
  PyDict.iteration_order [lit "a"; lit "b"; lit "c"]
  = [lit "a"; lit "c"; lit "b"].
Proof. vm_compute. reflexivity. Qed.

(** C8, as the claim states it: the pass over [tie_response] sees alice
    first, then bob, then carol, and returns the tally alice 3, bob 5,
    carol 3; the ranker then prints bob, carol, alice.  First-seen order
    among the equal counts would be alice before carol. *)
Lemma ranker_ties_not_first_seen :
  snd (generateTable tie_response bug_params 180 [])
    = Ok (tie_dir, tie_tally) /\
  generateList tie_dir tie_tally (lit "bug")
    = ([list_heading (lit "bug");
        PrintLink bob (JStr (profile bob));
        PrintLink carol (JStr (profile carol));
        PrintLink alice (JStr (profile alice));
        Println [LF]], Ok tt) /\
  map fst (ranked_first_seen tie_tally) = [bob; alice; carol].
Proof. repeat split; vm_compute; reflexivity. Qed.

Lemma permutation_of_three (A : Type) (a b c : A) (l : list A) :
  Permutation l [a; b; c] ->
  exists x y z, l = [x; y; z] /\
    In x [a; b; c] /\ In y [a; b; c] /\ In z [a; b; c] /\
    In a [x; y; z] /\ In b [x; y; z] /\ In c [x; y; z].
Proof.
  intros H. pose proof (Permutation_length H) as L.
  destruct l as [|x [|y [|z [|]]]]; try discriminate L.
  exists x, y, z. split; [reflexivity|].
  repeat split;
    solve [ apply (Permutation_in _ H); simpl; auto
          | apply (Permutation_in _ (Permutation_sym H)); simpl; auto ].
Qed.

Lemma tie_tally_ranking (c : Counter) :
  Permutation c tie_tally -> map fst (most_common c) = [bob; carol; alice].
Proof.
  intros H. apply permutation_of_three in H
    as (x & y & z & -> & Hx & Hy & Hz & Ha & Hb & Hc).
  simpl in Hx, Hy, Hz.
  destruct Hx as [<-|[<-|[<-|[]]]]; destruct Hy as [<-|[<-|[<-|[]]]];
    destruct Hz as [<-|[<-|[<-|[]]]];
    first [ vm_compute; reflexivity
          | exfalso; vm_compute in Ha, Hb, Hc;
            intuition discriminate ].
Qed.

(** C8, amended: for every tally the ranker prints the contributors in
    descending order of their counts, contributors of equal counts in the
    order in which the tally's dict iterates them; for the tally alice 3,
    bob 5, carol 3 it prints bob first and then carol and alice, in the
    hash-table order of CPython 2.7, whichever of them was seen first. *)
Theorem generateList_ranked (dir : list (pystr * json)) (c : Counter)
        (label : pystr) :
  (forall u, In u (map fst (most_common c)) -> lookup u dir <> None) ->
  generateList dir c label =
    (list_heading label :: map (link_event dir) (most_common c)
       ++ [Println [LF]], Ok tt) /\
  StronglySorted desc (most_common c) /\
  (forall n, with_count n (most_common c) = with_count n (iteritems c)) /\
  (forall c0, Permutation c0 tie_tally ->
              map fst (most_common c0) = [bob; carol; alice]).
Proof.
  intros H. split; [|split; [|split]].
  - now apply generateList_ok.
  - apply sorted_desc_sorted.
  - intros n. apply sorted_desc_stable.
  - apply tie_tally_ranking.
Qed.

Lemma generateList_ranked_witness :
  (forall u, In u (map fst (most_common tie_tally)) ->
             lookup u tie_dir <> None) /\
  (generateList tie_dir tie_tally (lit "bug") =
    (list_heading (lit "bug") :: map (link_event tie_dir) (most_common tie_tally)
       ++ [Println [LF]], Ok tt) /\
   StronglySorted desc (most_common tie_tally) /\
   (forall n, with_count n (most_common tie_tally)
              = with_count n (iteritems tie_tally)) /\
   (forall c0, Permutation c0 tie_tally ->
               map fst (most_common c0) = [bob; carol; alice])).
Proof.
  assert (H : forall u, In u (map fst (most_common tie_tally)) ->
                        lookup u tie_dir <> None).
  { intros u Hu. vm_compute in Hu.
    destruct Hu as [<-|[<-|[<-|[]]]]; vm_compute; discriminate. }
  split; [exact H|].
  exact (generateList_ranked tie_dir tie_tally (lit "bug") H).
Defined.

(** ** The dict iterates every key once *)

Section DictOrder.

Import PyDict.

Lemma entries_length (t : table) : length (entries t) <= length t.
Proof.
  induction t as [|[e|] t IH]; simpl; lia.
Qed.

Lemma store_length (t : table) (i : nat) (e : entry) :
  length (store t i e) = length t.
Proof.
  revert i; induction t as [|s t IH]; intros [|i]; simpl; auto.
Qed.

Lemma entries_store (t : table) (i : nat) (e : entry) :
  i < length t -> nth i t None = None ->
  Permutation (entries (store t i e)) (e :: entries t).
Proof.
  revert i; induction t as [|s t IH]; intros [|i] Hi Hfree; simpl in *; try lia.
  - subst s. reflexivity.
  - destruct s as [e'|]; simpl.
    + rewrite IH by (assumption || lia). apply perm_swap.
    + apply IH; [lia|assumption].
Qed.

Lemma first_free_spec (t : table) :
  length (entries t) < length t ->
  first_free t < length t /\ nth (first_free t) t None = None.
Proof.
  induction t as [|[e|] t IH]; simpl; intros H; try lia.
  - destruct IH as [H1 H2]; [lia|]. split; [lia|assumption].
  - split; [lia|reflexivity].
Qed.

Lemma masked_index (t : table) (x : N) :
  0 < length t -> N.to_nat (N.land x (N.of_nat (length t) - 1)) < length t.
Proof.
  intros H. pose proof (N.land_le_r x (N.of_nat (length t) - 1)). lia.
Qed.

Lemma probe_free (fuel : nat) (t : table) (i perturb : N) :
  length (entries t) < length t ->
  let j := probe fuel t (N.of_nat (length t) - 1) i perturb in
  j < length t /\ nth j t None = None.
Proof.
  intros H. revert i perturb. induction fuel as [|fuel IH]; intros i perturb.
  - now apply first_free_spec.
  - cbn [probe]. cbv zeta.
    destruct (slot t (N.land (wrap (i * 4 + i + perturb + 1))
                             (N.of_nat (length t) - 1))) eqn:E.
    + apply IH.
    + split; [apply masked_index; lia|exact E].
Qed.

Lemma find_slot_free (t : table) (hash : N) :
  length (entries t) < length t ->
  find_slot t hash < length t /\ nth (find_slot t hash) t None = None.
Proof.
  intros H. unfold find_slot. cbv zeta.
  destruct (slot t (N.land hash (N.of_nat (length t) - 1))) eqn:E.
  - now apply probe_free.
  - split; [apply masked_index; lia|exact E].
Qed.

Lemma insert_clean_spec (t : table) (e : entry) :
  length (entries t) < length t ->
  length (insert_clean t e) = length t /\
  Permutation (entries (insert_clean t e)) (e :: entries t).
Proof.
  intros H. unfold insert_clean.
  destruct (find_slot_free t (fst e) H) as [Hi Hfree].
  split; [apply store_length|now apply entries_store].
Qed.

Lemma reinsert_spec (es : list entry) (t : table) :
  length (entries t) + length es < length t ->
  length (fold_left insert_clean es t) = length t /\
  Permutation (entries (fold_left insert_clean es t)) (es ++ entries t).
Proof.
  revert t; induction es as [|e es IH]; intros t H; simpl in *.
  - split; reflexivity.
  - destruct (insert_clean_spec t e) as [Hlen Hperm]; [lia|].
    pose proof (Permutation_length Hperm) as Hused. simpl in Hused.
    destruct (IH (insert_clean t e)) as [Hlen' Hperm']; [lia|].
    split; [lia|].
    rewrite Hperm', Hperm. apply Permutation_sym, Permutation_middle.
Qed.

Lemma entries_repeat_none (n : nat) : entries (repeat None n) = [].
Proof. induction n; simpl; auto. Qed.

Lemma grow_above (fuel newsize minused : nat) :
  0 < newsize -> minused < fuel + newsize ->
  minused < grow fuel newsize minused.
Proof.
  revert newsize; induction fuel as [|fuel IH]; intros newsize Hpos H; simpl.
  - lia.
  - destruct (newsize <=? minused) eqn:E.
    + apply IH; lia.
    + apply Nat.leb_gt in E. exact E.
Qed.

Lemma dictresize_spec (t : table) (minused : nat) :
  length (entries t) <= minused ->
  minused < length (dictresize t minused) /\
  Permutation (entries (dictresize t minused)) (entries t).
Proof.
  intros H. unfold dictresize.
  pose proof (grow_above minused 8 minused) as Hgrow.
  destruct (reinsert_spec (entries t) (repeat None (grow minused 8 minused)))
    as [Hlen Hperm].
  { rewrite entries_repeat_none, repeat_length. simpl. lia. }
  rewrite repeat_length in Hlen. split; [lia|].
  rewrite Hperm, entries_repeat_none. now rewrite app_nil_r.
Qed.

Lemma setitem_new_spec (t : table) (key : pystr) :
  roomy t ->
  roomy (setitem_new t key) /\
  Permutation (map snd (entries (setitem_new t key)))
              (key :: map snd (entries t)).
Proof.
  unfold roomy. intros H. unfold setitem_new. cbv zeta.
  pose proof (entries_length t) as Hle.
  destruct (insert_clean_spec t (string_hash (utf8 key), key))
    as [Hlen Hperm]; [lia|].
  pose proof (Permutation_length Hperm) as Hused. simpl in Hused.
  set (t' := insert_clean t (string_hash (utf8 key), key)) in *.
  destruct (length t' * 2 <=? length (entries t') * 3) eqn:E.
  - set (m := (if (50000 <? N.of_nat (length (entries t')))%N then 2 else 4)
                * length (entries t')).
    assert (Hm : 2 * length (entries t') <= m)
      by (unfold m; destruct (50000 <? _)%N; lia).
    destruct (dictresize_spec t' m) as [Hbig Hperm']; [lia|].
    pose proof (Permutation_length Hperm') as Hused'.
    split; [lia|].
    rewrite Hperm', Hperm. reflexivity.
  - apply Nat.leb_gt in E. split; [lia|].
    rewrite Hperm. reflexivity.
Qed.

Lemma fold_setitem_new_spec (keys : list pystr) (t : table) :
  roomy t ->
  Permutation (map snd (entries (fold_left setitem_new keys t)))
              (keys ++ map snd (entries t)).
Proof.
  revert t; induction keys as [|k keys IH]; intros t H; simpl.
  - reflexivity.
  - destruct (setitem_new_spec t k H) as [Hroomy Hperm].
    rewrite (IH _ Hroomy), Hperm. apply Permutation_sym, Permutation_middle.
Qed.

(** The iteration of a dict goes through the keys that were stored, each
    once. *)
Lemma iteration_order_perm (keys : list pystr) :
  Permutation (iteration_order keys) keys.
Proof.
  unfold iteration_order.
  rewrite fold_setitem_new_spec by (unfold roomy, empty; simpl; lia).
  simpl. now rewrite app_nil_r.
Qed.

End DictOrder.

(** ** The ranking lists every contributor of the tally once *)

Section Contributors.

Lemma lookup_none (A : Type) (k : pystr) (d : list (pystr * A)) :
  lookup k d = None -> ~ In k (map fst d).
Proof.
  induction d as [|[k' v] d IH]; simpl; [tauto|].
  destruct (str_eqb k' k) eqn:E; [discriminate|].
  intros H [Hk|Hk]; [|now apply IH].
  subst k'. rewrite str_eqb_refl in E. discriminate.
Qed.

Lemma lookup_some_in (A : Type) (k : pystr) (v : A) (d : list (pystr * A)) :
  lookup k d = Some v -> In k (map fst d).
Proof.
  induction d as [|[k' v'] d IH]; simpl; [discriminate|].
  destruct (str_eqb k' k) eqn:E.
  - apply str_eqb_eq in E. now left.
  - intros H. right. now apply IH.
Qed.

Lemma in_keys_lookup (A : Type) (k : pystr) (d : list (pystr * A)) :
  In k (map fst d) -> lookup k d <> None.
Proof.
  intros Hin H. now apply lookup_none in H.
Qed.

Lemma items_of_keys (c : Counter) :
  NoDup (map fst c) ->
  forall c0, (forall k v, In (k, v) c -> lookup k c0 = Some v) ->
  map (fun k => (k, counter_get c0 k)) (map fst c) = c.
Proof.
  induction c as [|[k v] c IH]; simpl; intros Hnd c0 H; [reflexivity|].
  inversion Hnd; subst. unfold counter_get at 1.
  rewrite (H k v) by now left. f_equal. apply IH; [assumption|].
  intros k' v' Hin. apply H. now right.
Qed.

Lemma lookup_nodup (c : Counter) :
  NoDup (map fst c) -> forall k v, In (k, v) c -> lookup k c = Some v.
Proof.
  induction c as [|[k' v'] c IH]; simpl; intros Hnd k v Hin; [contradiction|].
  inversion Hnd as [|? ? Hnotin Hnd']; subst.
  destruct Hin as [Hin|Hin].
  - inversion Hin; subst. now rewrite str_eqb_refl.
  - destruct (str_eqb k' k) eqn:E; [|now apply IH].
    apply str_eqb_eq in E. subst k'. exfalso. apply Hnotin.
    apply in_map_iff. now exists (k, v).
Qed.

Lemma iteritems_perm (c : Counter) :
  NoDup (map fst c) -> Permutation (iteritems c) c.
Proof.
  intros Hnd. unfold iteritems.
  rewrite (Permutation_map _ (iteration_order_perm (map fst c))).
  rewrite (items_of_keys c Hnd c (lookup_nodup c Hnd)). reflexivity.
Qed.

Lemma most_common_perm (c : Counter) :
  NoDup (map fst c) -> Permutation (most_common c) c.
Proof.
  intros Hnd. unfold most_common.
  rewrite sorted_desc_perm. now apply iteritems_perm.
Qed.

Lemma dict_set_nodup (A : Type) (k : pystr) (v : A) (d : list (pystr * A)) :
  NoDup (map fst d) -> NoDup (map fst (dict_set k v d)).
Proof.
  intros H. rewrite dict_set_keys.
  destruct (lookup k d) eqn:E; [assumption|].
  apply lookup_none in E.
  apply (Permutation_NoDup (l := k :: map fst d)).
  - apply Permutation_cons_append.
  - now constructor.
Qed.

Lemma after_rows_nodup (rows : list row) (st : pass) :
  NoDup (map fst (tally st)) -> NoDup (map fst (tally (after_rows st rows))).
Proof.
  revert st; induction rows as [|r rows IH]; intros st H; [assumption|].
  rewrite after_rows_cons. apply IH. simpl. now apply dict_set_nodup.
Qed.

(** A contributor counted by a pass that started from an empty counter is
    in the directory of that pass. *)
Lemma after_rows_directory (rows : list row) (st : pass) :
  (forall u, In u (map fst (tally st)) -> In u (map fst (contributors st))) ->
  forall u, In u (map fst (tally (after_rows st rows))) ->
            In u (map fst (contributors (after_rows st rows))).
Proof.
  revert st; induction rows as [|r rows IH]; intros st H; [assumption|].
  rewrite after_rows_cons. apply IH. simpl. intros u.
  rewrite !dict_set_keys.
  assert (Hdir : In u (row_user r :: map fst (contributors st)) ->
                 In u (match lookup (row_user r) (contributors st) with
                       | Some _ => map fst (contributors st)
                       | None => map fst (contributors st) ++ [row_user r]
                       end)).
  { destruct (lookup (row_user r) (contributors st)) eqn:Ec.
    - intros [<-|Hu]; [|assumption]. eapply lookup_some_in; eauto.
    - rewrite in_app_iff. simpl. tauto. }
  intros Hu. apply Hdir. clear Hdir.
  unfold counter_incr in Hu. rewrite dict_set_keys in Hu.
  destruct (lookup (row_user r) (tally st)).
  - right. now apply H.
  - apply in_app_iff in Hu as [Hu|[Hu|[]]]; [right; now apply H|now left].
Qed.

End Contributors.

(** ** One section of the report *)

Lemma main_loop_section (fetch : params -> json) (since : pystr) (limit : Z)
      (label : pystr) (rest : list pystr) (results : list json)
      (rows : list row) :
  iter (fetch (label_params label since)) = Ok results ->
  Forall2 has_fields results rows ->
  main_loop fetch since limit (label :: rest) =
  (section_events label since limit results rows
     ++ fst (main_loop fetch since limit rest),
   snd (main_loop fetch since limit rest)).
Proof.
  intros Hiter Hrows. cbn [main_loop]. fold (label_params label since).
  rewrite (generateTable_ok _ (label_params label since) limit []
             results rows Hiter Hrows).
  cbv zeta. fold empty_pass.
  rewrite after_rows_contributors. cbn [contributors empty_pass].
  fold (upserts rows []). fold (section_tally rows).
  assert (Hdir : forall u, In u (map fst (most_common (section_tally rows))) ->
                           lookup u (upserts rows []) <> None).
  { intros u Hu. apply in_keys_lookup.
    assert (Hnd : NoDup (map fst (section_tally rows)))
      by (apply after_rows_nodup; constructor).
    apply (Permutation_in _ (Permutation_map fst (most_common_perm _ Hnd))) in Hu.
    pose proof (after_rows_directory rows empty_pass (fun _ H => H) u Hu) as Hin.
    now rewrite after_rows_contributors in Hin. }
  unfold bind at 1. cbn iota beta.
  rewrite (generateList_ok _ _ label Hdir). unfold bind at 1.
  destruct (main_loop fetch since limit rest) as [out r].
  unfold section_events. cbn [fst snd].
  f_equal. cbn [app]. do 2 f_equal.
  rewrite <- !app_assoc. cbn [app]. rewrite <- ?app_assoc. reflexivity.
Qed.

(** ** Further properties *)

(** The sanitizer is idempotent on every text, whatever the length of its
    tokens: a cut token is cut at the same place again. *)
Theorem bodyBreaker_idempotent (body : pystr) (width : nat) :
  bodyBreaker (bodyBreaker body width) width = bodyBreaker body width.
Proof. apply bodyBreaker_idem. Qed.

(** A response that is a list of issues, each with a string title, a URL, a
    string body and an author with a string login and a profile URL, is
    rendered to the end without an exception: the heading, the table
    header, one row per issue in order, and the count line with the number
    of issues twice. *)
Theorem generateTable_renders (p : params) (limit : Z) (c : Counter)
        (results : list json) (rows : list row) :
  Forall2 has_fields results rows ->
  generateTable (JList results) p limit c =
  (heading p :: Println intro :: map (row_event limit) rows
     ++ [Println (total_line (length results) (length results))],
   Ok (upserts rows [], tally (after_rows
                                 {| contributors := []; tally := c; total := 0 |}
                                 rows))).
Proof.
  intros H.
  rewrite (generateTable_ok (JList results) p limit c results rows eq_refl H).
  cbv zeta. rewrite after_rows_contributors, (Forall2_length H). reflexivity.
Qed.

Lemma generateTable_renders_witness :
  Forall2 has_fields
          [issue (lit "t") (lit "u") (JStr (lit "d")) alice (profile alice)]
          [{| row_title := lit "t"; row_url := JStr (lit "u");
              row_body := lit "d"; row_user := alice;
              row_user_url := JStr (profile alice) |}] /\
  generateTable
    (JList [issue (lit "t") (lit "u") (JStr (lit "d")) alice (profile alice)])
    bug_params 180 []
  = ([heading bug_params; Println intro;
      PrintRow (lit "t ") (JStr (lit "u")) (lit "d ") alice
               (JStr (profile alice));
      Println (lit "Total of 1 out of 1" ++ [LF])],
     Ok ([(alice, JStr (profile alice))], [(alice, 1%Z)])).
Proof.
  assert (H : Forall2 has_fields
                [issue (lit "t") (lit "u") (JStr (lit "d")) alice (profile alice)]
                [{| row_title := lit "t"; row_url := JStr (lit "u");
                    row_body := lit "d"; row_user := alice;
                    row_user_url := JStr (profile alice) |}]).
  { constructor; [|constructor]. apply issue_has_fields. }
  split; [exact H|].
  exact (generateTable_renders bug_params 180 [] _ _ H).
Defined.

(** The ranking of a tally with distinct keys lists every contributor of the
    tally exactly once, with their count, larger counts first. *)
Theorem most_common_ranks_all (c : Counter) :
  NoDup (map fst c) ->
  Permutation (most_common c) c /\ StronglySorted desc (most_common c).
Proof.
  intros H. split; [now apply most_common_perm|apply sorted_desc_sorted].
Qed.

Lemma most_common_ranks_all_witness :
  NoDup (map fst tie_tally) /\
  Permutation (most_common tie_tally) tie_tally /\
  StronglySorted desc (most_common tie_tally).
Proof.
  assert (H : NoDup (map fst tie_tally)).
  { repeat constructor; simpl; intuition discriminate. }
  split; [exact H|]. exact (most_common_ranks_all tie_tally H).
Defined.

(** One turn of the loop of [main]: when the response for a label is a list
    of well-formed issues, the section of the label is the table of
    [generateTable] followed by the ranked list of [generateList], which
    finds every contributor of the tally in the directory; the sections of
    the remaining labels follow. *)
Theorem main_loop_prints_section (fetch : params -> json) (since : pystr)
        (limit : Z) (label : pystr) (rest : list pystr)
        (results : list json) (rows : list row) :
  iter (fetch (label_params label since)) = Ok results ->
  Forall2 has_fields results rows ->
  main_loop fetch since limit (label :: rest) =
  (section_events label since limit results rows
     ++ fst (main_loop fetch since limit rest),
   snd (main_loop fetch since limit rest)).
Proof. apply main_loop_section. Qed.

(** The labels [bug] and [enhancement], requested in that order with no
    matching issue, give two sections in that order, the first one headed
    [Bug Fix Updates] and [Bug Fix Contributors]. *)
Example main_two_labels :
  main (fun _ => JList []) (lit "caffe2/caffe2") (lit "2017-05-01") 180
       [lit "bug"; lit "enhancement"]
  = ([PrintBanner (lit "caffe2/caffe2") [lit "bug"; lit "enhancement"];
      Println (LF :: lit "## Bug Fix Updates");
      Println intro;
      Println (lit "Total of 0 out of 0" ++ [LF]);
      Println (LF :: lit "### Bug Fix Contributors" ++ [LF]);
      Println [LF];
      Println (LF :: lit "## Enhancement Updates");
      Println intro;
      Println (lit "Total of 0 out of 0" ++ [LF]);
      Println (LF :: lit "### Enhancement Contributors" ++ [LF]);
      Println [LF]], Ok tt).
Proof. vm_compute. reflexivity. Qed.

Lemma main_loop_prints_section_witness :
  iter ((fun _ => sample_response) (label_params (lit "bug") (lit "2017-05-01")))
    = Ok [issue (lit "Fix build") (lit "https://github.com/o/r/issues/1")
                (JStr (lit "the `make` target fails")) (lit "alice")
                (lit "https://github.com/alice");
          issue (lit "Typo") (lit "https://github.com/o/r/issues/2")
                (JStr []) (lit "bob") (lit "https://github.com/bob");
          issue (lit "Crash on start") (lit "https://github.com/o/r/issues/3")
                (JStr (lit "segfault")) (lit "alice")
                (lit "https://github.com/alice")] /\
  main_loop (fun _ => sample_response) (lit "2017-05-01") 180 [lit "bug"] =
  (section_events (lit "bug") (lit "2017-05-01") 180
     [issue (lit "Fix build") (lit "https://github.com/o/r/issues/1")
            (JStr (lit "the `make` target fails")) (lit "alice")
            (lit "https://github.com/alice");
      issue (lit "Typo") (lit "https://github.com/o/r/issues/2")
            (JStr []) (lit "bob") (lit "https://github.com/bob");
      issue (lit "Crash on start") (lit "https://github.com/o/r/issues/3")
            (JStr (lit "segfault")) (lit "alice")
            (lit "https://github.com/alice")]
     sample_rows
     ++ fst (main_loop (fun _ => sample_response) (lit "2017-05-01") 180 []),
   snd (main_loop (fun _ => sample_response) (lit "2017-05-01") 180 [])).
Proof.
  split; [reflexivity|].
  apply (main_loop_prints_section (fun _ => sample_response)
           (lit "2017-05-01") 180 (lit "bug") [] _ sample_rows eq_refl).
  repeat constructor; apply issue_has_fields.
Defined.

(** ** What [getLabels] and [generateTable] do with every response *)

Lemma getLabels_cases (output : json) :
  getLabels output =
  match output with
  | JDict d =>
      match lookup (lit "message") d with
      | None => ([], Raise KeyError)
      | Some message =>
          if eq_str message (lit "Not Found")
          then ([Println (lit "That repo and/or label was not found.")], Ok [])
          else ([], Raise TypeError)
      end
  | _ => ([], Raise TypeError)
  end.
Proof.
  destruct output as [| | | | |l|d]; try reflexivity.
  unfold getLabels. cbn [getitem].
  destruct (lookup (lit "message") d) as [message|] eqn:E; [|reflexivity].
  rewrite bind_lift_ok.
  destruct (eq_str message (lit "Not Found")); [reflexivity|].
  destruct d as [|[k v] d]; [discriminate E|reflexivity].
Qed.

(** Every response decides the outcome of [getLabels]: a value that is not
    an object raises [TypeError] at [output['message']]; an object without
    [message] raises [KeyError]; an object whose [message] is [Not Found]
    prints the message and returns the empty list; any other object (a
    rate-limit notice, say) raises [TypeError] at [result['name']], since
    iterating it gives its keys.  So no run of [getLabels] returns a label,
    and a run that raises has printed nothing. *)
Theorem getLabels_outcome (output : json) :
  getLabels output =
  match output with
  | JDict d =>
      match lookup (lit "message") d with
      | None => ([], Raise KeyError)
      | Some message =>
          if eq_str message (lit "Not Found")
          then ([Println (lit "That repo and/or label was not found.")], Ok [])
          else ([], Raise TypeError)
      end
  | _ => ([], Raise TypeError)
  end.
Proof. exact (getLabels_cases output). Qed.

(** A response that is not a list: an object with at least one key (the
    not-found or rate-limit notice of the service) and a non-empty string
    are iterated, and the first [result['title']] raises [TypeError];
    [null], a boolean and a number are not iterable; an empty object and an
    empty string give a table with no row.  The heading and the table
    header are printed in every case. *)
Theorem generateTable_not_a_list (output : json) (p : params) (limit : Z)
        (c : Counter) :
  generateTable output p limit c =
  match output with
  | JList results => generateTable (JList results) p limit c
  | JDict [] | JStr [] =>
      ([heading p; Println intro; Println (lit "Total of 0 out of 0" ++ [LF])],
       Ok ([], c))
  | _ => ([heading p; Println intro], Raise TypeError)
  end.
Proof.
  destruct output as [| | | |s|l|d]; try reflexivity.
  - destruct s; reflexivity.
  - destruct d; reflexivity.
Qed.

(** The loop body prints its row last: when it raises, it has printed
    nothing. *)
Lemma generateTable_step_raise (limit : Z) (result : json) (st : pass)
      (out : list event) (e : exn) :
  generateTable_step limit result st = (out, Raise e) -> out = [].
Proof.
  unfold generateTable_step.
  repeat match goal with
         | |- bind (lift ?r) _ = _ -> _ =>
             destruct r;
             [rewrite bind_lift_ok
             |rewrite bind_lift_raise; intros H; now inversion H]
         end.
  rewrite bind_print. cbn. discriminate.
Qed.

Lemma generateTable_step_cases (limit : Z) (result : json) (st : pass) :
  (exists r, has_fields result r /\
             generateTable_step limit result st =
             ([row_event limit r],
              Ok (after_issue st (row_user r) (row_user_url r)))) \/
  (exists e, generateTable_step limit result st = ([], Raise e)).
Proof.
  destruct (generateTable_step limit result st) as [out [st'|e]] eqn:E.
  - left. destruct (generateTable_step_inv _ _ _ _ _ E)
      as (t & u & b & l & pr & Hf).
    exists {| row_title := t; row_url := u; row_body := b;
              row_user := l; row_user_url := pr |}.
    split; [exact Hf|].
    rewrite <- E. now apply generateTable_step_ok.
  - right. exists e. now rewrite (generateTable_step_raise _ _ _ _ _ E).
Qed.

(** Rows are written as they are produced: when the issues before the
    first element that lacks a field of an issue are well formed, their
    rows are printed after the heading and the table header, then the
    exception of that element ends the pass, with no count line and
    nothing returned. *)
Theorem generateTable_stops_at_bad_issue
        (good : list json) (rows : list row) (bad : json) (rest : list json)
        (p : params) (limit : Z) (c : Counter) :
  Forall2 has_fields good rows ->
  (forall r, ~ has_fields bad r) ->
  exists e,
    generateTable (JList (good ++ bad :: rest)) p limit c =
    (heading p :: Println intro :: map (row_event limit) rows, Raise e).
Proof.
  intros Hgood Hbad.
  set (st0 := {| contributors := []; tally := c; total := 0 |}).
  assert (Hloop : forall st, exists e,
             generateTable_loop limit (good ++ bad :: rest) st =
             (map (row_event limit) rows, Raise e)).
  { induction Hgood as [|g r good rows Hg _ IH]; intros st.
    - cbn [app generateTable_loop map].
      destruct (generateTable_step_cases limit bad st)
        as [(r & Hr & _)|[e E]]; [now apply Hbad in Hr|].
      exists e. now rewrite E.
    - cbn [app generateTable_loop map].
      rewrite (generateTable_step_ok limit g st _ _ _ _ _ Hg).
      destruct (IH (after_issue st (row_user r) (row_user_url r))) as [e E].
      exists e. unfold bind. now rewrite E. }
  destruct (Hloop st0) as [e E]. exists e.
  unfold generateTable. rewrite !bind_print. cbn [fst snd iter].
  rewrite bind_lift_ok. fold st0. unfold bind at 1. rewrite E. reflexivity.
Qed.

Lemma generateTable_stops_at_bad_issue_witness :
  Forall2 has_fields
          [issue (lit "t") (lit "u") (JStr (lit "d")) alice (profile alice)]
          [{| row_title := lit "t"; row_url := JStr (lit "u");
              row_body := lit "d"; row_user := alice;
              row_user_url := JStr (profile alice) |}] /\
  (forall r, ~ has_fields
               (issue (lit "t2") (lit "u2") JNull bob (profile bob)) r) /\
  exists e,
    generateTable
      (JList ([issue (lit "t") (lit "u") (JStr (lit "d")) alice (profile alice)]
                ++ issue (lit "t2") (lit "u2") JNull bob (profile bob)
                :: [issue_by carol]))
      bug_params 180 [] =
    (heading bug_params :: Println intro
       :: map (row_event 180)
              [{| row_title := lit "t"; row_url := JStr (lit "u");
                  row_body := lit "d"; row_user := alice;
                  row_user_url := JStr (profile alice) |}],
     Raise e).
Proof.
  assert (H1 : Forall2 has_fields
                 [issue (lit "t") (lit "u") (JStr (lit "d")) alice (profile alice)]
                 [{| row_title := lit "t"; row_url := JStr (lit "u");
                     row_body := lit "d"; row_user := alice;
                     row_user_url := JStr (profile alice) |}]).
  { constructor; [|constructor]. apply issue_has_fields. }
  assert (H2 : forall r, ~ has_fields
                 (issue (lit "t2") (lit "u2") JNull bob (profile bob)) r).
  { intros r [_ _ Hb _]. vm_compute in Hb. discriminate Hb. }
  split; [exact H1|]. split; [exact H2|].
  exact (generateTable_stops_at_bad_issue _ _ _ [issue_by carol]
           bug_params 180 [] H1 H2).
Defined.

(** ** The cells of a row *)

Section Cells.

Lemma scan_chars (s : pystr) :
  (forall c, In c (fst (scan s)) -> In c s) /\
  (forall t c, In t (snd (scan s)) -> In c t -> In c s).
Proof.
  induction s as [|a s [IHw IHws]]; simpl; [tauto|].
  destruct (scan s) as [w ws]; simpl in *.
  destruct (isspace a); simpl.
  - split; [tauto|]. intros t c Ht Hc. right.
    destruct w as [|x w]; simpl in Ht; [eauto|].
    destruct Ht as [<-|Ht]; eauto.
  - split.
    + intros c [Hc|Hc]; auto.
    + intros t c Ht Hc. right. eauto.
Qed.

Lemma split_chars (s t : pystr) (c : char) :
  In t (split s) -> In c t -> In c s.
Proof.
  unfold split. destruct (scan_chars s) as [Hw Hws].
  destruct (scan s) as [w ws]; simpl in *.
  destruct w as [|x w]; simpl; [eauto|].
  intros [<-|Ht]; eauto.
Qed.

Lemma break_word_chars (width : nat) (t : pystr) (c : char) :
  In c (break_word width t) -> In c t \/ c = 46%N.
Proof.
  unfold break_word. destruct (width <? length t); [|tauto].
  rewrite in_app_iff. intros [H|H].
  - left. rewrite <- (firstn_skipn width t). apply in_app_iff. now left.
  - right. simpl in H. intuition.
Qed.

Lemma bodyBreaker_in (body : pystr) (width : nat) (c : char) :
  In c (bodyBreaker body width) ->
  c = SPACE \/
  exists t, In t (split body) /\ In c (break_word width t).
Proof.
  rewrite bodyBreaker_concat. intros H.
  apply in_concat in H as (x & Hx & Hc).
  apply in_map_iff in Hx as (t & <- & Ht).
  unfold spaced in Hc. apply in_app_iff in Hc as [Hc|[Hc|[]]].
  - right. now exists t.
  - left. now symmetry.
Qed.

(** Each character of the sanitizer's output is a character of the input,
    a space or a dot. *)
Lemma bodyBreaker_chars (body : pystr) (width : nat) (c : char) :
  In c (bodyBreaker body width) -> c = SPACE \/ c = 46%N \/ In c body.
Proof.
  intros H. apply bodyBreaker_in in H as [H|(t & Ht & Hc)]; [now left|].
  right. apply break_word_chars in Hc as [Hc|Hc]; [right|now left].
  eapply split_chars; eauto.
Qed.

Lemma bodyBreaker_spaces (body : pystr) (width : nat) (c : char) :
  In c (bodyBreaker body width) -> isspace c = true -> c = SPACE.
Proof.
  intros H Hsp. apply bodyBreaker_in in H as [H|(t & Ht & Hc)]; [exact H|].
  pose proof (split_words body) as Hw. rewrite Forall_forall in Hw.
  destruct (break_word_is_word width t (Hw t Ht)) as [_ Hns].
  unfold nonspace in Hns. rewrite Forall_forall in Hns.
  rewrite (Hns c Hc) in Hsp. discriminate.
Qed.

Lemma bodyBreaker_tidy (body : pystr) (width : nat) :
  tidy_cell (width + 2) (bodyBreaker body width).
Proof.
  split.
  - intros ch. apply bodyBreaker_spaces.
  - rewrite split_bodyBreaker. apply Forall_map, Forall_forall.
    intros t _. apply break_word_length.
Qed.

Lemma replace_char_in (old : char) (new s : pystr) (c : char) :
  In c (replace_char old new s) -> In c new \/ (In c s /\ c <> old).
Proof.
  unfold replace_char. intros H.
  apply in_flat_map in H as (x & Hx & Hc).
  destruct (char_eqb x old) eqn:E; [now left|].
  destruct Hc as [<-|[]]. right. split; [assumption|].
  intros ->. unfold char_eqb in E. rewrite N.eqb_refl in E. discriminate.
Qed.

Lemma cleaned_no_backtick (body : pystr) : ~ In BACKTICK (cleaned body).
Proof.
  unfold cleaned. intros H.
  apply replace_char_in in H as [[]|[_ H]]. now apply H.
Qed.

Lemma body_cell_tidy (limit : Z) (body : pystr) :
  tidy_cell 52 (body_cell limit body) /\
  ~ In BACKTICK (body_cell limit body) /\
  body_cell limit body <> [].
Proof.
  unfold body_cell. cbv zeta.
  destruct (length (bodyBreaker (marked_body limit body) 50) =? 0) eqn:L.
  - repeat split; try discriminate.
    + intros ch Hch Hsp. vm_compute in Hch.
      destruct Hch as [<-|[<-|[<-|[]]]]; discriminate Hsp.
    + repeat constructor.
    + intros H. vm_compute in H. intuition discriminate.
  - split; [apply (bodyBreaker_tidy _ 50)|]. split.
    + intros H. apply bodyBreaker_chars in H as [H|[H|H]]; try discriminate H.
      unfold marked_body, trimmed_body in H.
      destruct (limit <? Z.of_nat (length body))%Z.
      * apply in_app_iff in H as [H|H];
          [now apply cleaned_no_backtick in H|].
        vm_compute in H. intuition discriminate.
      * now apply cleaned_no_backtick in H.
    + intros E. rewrite E in L. discriminate L.
Qed.

Lemma generateTable_loop_events (limit : Z) (results : list json) :
  forall st ev,
    In ev (fst (generateTable_loop limit results st)) ->
    exists r, ev = row_event limit r.
Proof.
  induction results as [|result results IH]; intros st ev H; [destruct H|].
  cbn [generateTable_loop] in H.
  destruct (generateTable_step_cases limit result st)
    as [(r & _ & E)|[e E]]; rewrite E in H; unfold bind in H.
  - destruct (generateTable_loop limit results _) as [out res] eqn:El.
    cbn [fst app] in H. destruct H as [<-|H]; [now exists r|].
    apply (IH (after_issue st (row_user r) (row_user_url r))).
    now rewrite El.
  - destruct H.
Qed.

(** What [generateTable] prints, whether it returns or raises: the
    heading, the table header, rows, and a count line. *)
Lemma generateTable_events (output : json) (p : params) (limit : Z)
      (c : Counter) (ev : event) :
  In ev (fst (generateTable output p limit c)) ->
  ev = heading p \/ ev = Println intro \/
  (exists n m, ev = Println (total_line n m)) \/
  exists r, ev = row_event limit r.
Proof.
  unfold generateTable. rewrite !bind_print. cbn [fst snd].
  intros [<-|[<-|H]]; [now left|now right; left|].
  right; right.
  destruct (iter output) as [results|e]; [|destruct H].
  rewrite bind_lift_ok in H. unfold bind at 1 in H.
  pose proof (generateTable_loop_events limit results
                {| contributors := []; tally := c; total := 0 |} ev) as Hl.
  destruct (generateTable_loop limit results _) as [out [st|e]];
    cbn [fst] in Hl; [|right; now apply Hl].
  destruct (len output) as [n|e].
  - rewrite bind_lift_ok, bind_print in H. cbn [fst snd ret] in H.
    apply in_app_iff in H as [H|[<-|[]]]; [right; now apply Hl|].
    left. now exists (total st), n.
  - rewrite bind_lift_raise, app_nil_r in H. right. now apply Hl.
Qed.

End Cells.

(** In every run of [generateTable], to its end or to an exception, each
    row that is printed has a title cell and a summary cell whose only
    whitespace is the plain space (no line break reaches the table) and
    whose tokens are at most 27 and 52 characters long; the summary cell
    holds no backtick and is never empty. *)
Theorem generateTable_rows_tidy (output : json) (p : params) (limit : Z)
        (c : Counter) (title : pystr) (url : json) (body : pystr)
        (user : pystr) (user_url : json) :
  In (PrintRow title url body user user_url)
     (fst (generateTable output p limit c)) ->
  tidy_cell 27 title /\ tidy_cell 52 body /\
  ~ In BACKTICK body /\ body <> [].
Proof.
  intros H. apply generateTable_events in H
    as [H|[H|[(n & m & H)|[r H]]]]; try discriminate H.
  unfold row_event in H. inversion H; subst.
  split; [apply (bodyBreaker_tidy _ 25)|apply body_cell_tidy].
Qed.

Lemma generateTable_rows_tidy_witness :
  In (PrintRow (lit "Fix build ") (JStr (lit "https://github.com/o/r/issues/1"))
               (lit "the make target fails ") (lit "alice")
               (JStr (lit "https://github.com/alice")))
     (fst (generateTable sample_response bug_params 180 [])) /\
  (tidy_cell 27 (lit "Fix build ") /\
   tidy_cell 52 (lit "the make target fails ") /\
   ~ In BACKTICK (lit "the make target fails ") /\
   lit "the make target fails " <> []).
Proof.
  assert (H : In (PrintRow (lit "Fix build ")
                    (JStr (lit "https://github.com/o/r/issues/1"))
                    (lit "the make target fails ") (lit "alice")
                    (JStr (lit "https://github.com/alice")))
                 (fst (generateTable sample_response bug_params 180 [])))
    by (vm_compute; auto).
  split; [exact H|].
  exact (generateTable_rows_tidy _ _ _ _ _ _ _ _ _ H).
Defined.

(** ** Invariants of the tally and the directory *)

Section TallyInvariants.

Lemma counter_total_incr (c : Counter) (u : pystr) :
  counter_total (counter_incr c u) = (counter_total c + 1)%Z.
Proof.
  unfold counter_incr, counter_get.
  induction c as [|[k v] c IH]; simpl; [reflexivity|].
  destruct (str_eqb k u); simpl; [lia|].
  rewrite IH. lia.
Qed.

Lemma after_rows_counter_total (rows : list row) (st : pass) :
  counter_total (tally (after_rows st rows)) =
  (counter_total (tally st) + Z.of_nat (length rows))%Z.
Proof.
  revert st; induction rows as [|r rows IH]; intros st.
  - simpl. lia.
  - rewrite after_rows_cons, IH. cbn [tally after_issue length].
    rewrite counter_total_incr. lia.
Qed.

Lemma lookup_value_in (A : Type) (k : pystr) (v : A) (d : list (pystr * A)) :
  lookup k d = Some v -> exists k', In (k', v) d.
Proof.
  induction d as [|[k0 v0] d IH]; simpl; [discriminate|].
  destruct (str_eqb k0 k).
  - intros H. inversion H; subst. exists k0. now left.
  - intros H. destruct (IH H) as [k' Hk]. exists k'. now right.
Qed.

Lemma dict_set_values (A : Type) (Q : A -> Prop) (k : pystr) (v : A)
      (d : list (pystr * A)) :
  Forall (fun item => Q (snd item)) d -> Q v ->
  Forall (fun item => Q (snd item)) (dict_set k v d).
Proof.
  intros Hd Hv. induction Hd as [|[k0 v0] d H0 Hd IH]; simpl.
  - repeat constructor. exact Hv.
  - destruct (str_eqb k0 k); constructor; assumption.
Qed.

Lemma counter_incr_positive (c : Counter) (u : pystr) :
  Forall (fun item => (1 <= snd item)%Z) c ->
  Forall (fun item => (1 <= snd item)%Z) (counter_incr c u).
Proof.
  intros H. unfold counter_incr.
  apply (dict_set_values Z (fun n => (1 <= n)%Z)); [exact H|].
  unfold counter_get. destruct (lookup u c) as [n|] eqn:E; [|lia].
  apply lookup_value_in in E as [k' Hin].
  rewrite Forall_forall in H. specialize (H _ Hin). simpl in H. lia.
Qed.

Lemma same_keys_lookup (A B : Type) (k : pystr) (d : list (pystr * A))
      (d' : list (pystr * B)) :
  map fst d = map fst d' ->
  (lookup k d = None <-> lookup k d' = None).
Proof.
  intros H. split; intros E.
  - destruct (lookup k d') eqn:E'; [|reflexivity].
    apply lookup_some_in in E'. rewrite <- H in E'.
    now apply lookup_none in E.
  - destruct (lookup k d) eqn:E'; [|reflexivity].
    apply lookup_some_in in E'. rewrite H in E'.
    now apply lookup_none in E.
Qed.

Lemma after_rows_same_keys (rows : list row) (st : pass) :
  map fst (contributors st) = map fst (tally st) ->
  map fst (contributors (after_rows st rows))
  = map fst (tally (after_rows st rows)).
Proof.
  revert st; induction rows as [|r rows IH]; intros st H; [exact H|].
  rewrite after_rows_cons. apply IH. cbn [contributors tally after_issue].
  unfold counter_incr. rewrite !dict_set_keys.
  pose proof (same_keys_lookup _ _ (row_user r) _ _ H) as Hk.
  destruct (lookup (row_user r) (contributors st)) eqn:E1;
    destruct (lookup (row_user r) (tally st)) eqn:E2;
    try (now rewrite H);
    [destruct Hk as [_ Hk]|destruct Hk as [Hk _]];
    specialize (Hk eq_refl); discriminate Hk.
Qed.

Lemma after_rows_positive (rows : list row) (st : pass) :
  Forall (fun item => (1 <= snd item)%Z) (tally st) ->
  Forall (fun item => (1 <= snd item)%Z) (tally (after_rows st rows)).
Proof.
  revert st; induction rows as [|r rows IH]; intros st H; [exact H|].
  rewrite after_rows_cons. apply IH. now apply counter_incr_positive.
Qed.

End TallyInvariants.

(** A pass that reaches its end adds exactly the number of issues of the
    response to the sum of the counts of the tally it was given. *)
Theorem generateTable_tally_adds_up (output : json) (p : params) (limit : Z)
        (c : Counter) (out : list event) (dir : list (pystr * json))
        (c' : Counter) :
  generateTable output p limit c = (out, Ok (dir, c')) ->
  exists results,
    iter output = Ok results /\
    counter_total c' = (counter_total c + Z.of_nat (length results))%Z.
Proof.
  intros H.
  destruct (generateTable_inv _ _ _ _ _ _ _ H) as (results & rows & Hi & Hr).
  rewrite (generateTable_ok output p limit c results rows Hi Hr) in H.
  inversion H as [[Hout Hdir Hc]]. exists results. split; [exact Hi|].
  rewrite after_rows_counter_total, (Forall2_length Hr). reflexivity.
Qed.

Lemma generateTable_tally_adds_up_witness :
  generateTable sample_response bug_params 180 [(lit "zed", 4%Z)]
  = (sample_out,
     Ok (sample_dir, [(lit "zed", 4%Z); (lit "alice", 2%Z); (lit "bob", 1%Z)]))
  /\
  exists results,
    iter sample_response = Ok results /\
    counter_total [(lit "zed", 4%Z); (lit "alice", 2%Z); (lit "bob", 1%Z)]
    = (counter_total [(lit "zed", 4%Z)] + Z.of_nat (length results))%Z.
Proof.
  assert (H : generateTable sample_response bug_params 180 [(lit "zed", 4%Z)]
              = (sample_out,
                 Ok (sample_dir,
                     [(lit "zed", 4%Z); (lit "alice", 2%Z); (lit "bob", 1%Z)])))
    by (vm_compute; reflexivity).
  split; [exact H|].
  exact (generateTable_tally_adds_up _ _ _ _ _ _ _ H).
Defined.

(** After a pass that started from a fresh counter, as every pass of
    [main] does, the directory and the tally hold the same contributors in
    the same order, each once, and every count is at least 1. *)
Theorem generateTable_fresh_tally (output : json) (p : params) (limit : Z)
        (out : list event) (dir : list (pystr * json)) (c' : Counter) :
  generateTable output p limit [] = (out, Ok (dir, c')) ->
  map fst dir = map fst c' /\
  NoDup (map fst c') /\
  Forall (fun item => (1 <= snd item)%Z) c'.
Proof.
  intros H.
  destruct (generateTable_inv _ _ _ _ _ _ _ H) as (results & rows & Hi & Hr).
  rewrite (generateTable_ok output p limit [] results rows Hi Hr) in H.
  inversion H as [[Hout Hdir Hc]]. split; [|split].
  - now apply after_rows_same_keys.
  - apply after_rows_nodup. constructor.
  - apply after_rows_positive. constructor.
Qed.

Lemma generateTable_fresh_tally_witness :
  generateTable sample_response bug_params 180 []
  = (sample_out, Ok (sample_dir, sample_tally)) /\
  (map fst sample_dir = map fst sample_tally /\
   NoDup (map fst sample_tally) /\
   Forall (fun item => (1 <= snd item)%Z) sample_tally).
Proof.
  assert (H : generateTable sample_response bug_params 180 []
              = (sample_out, Ok (sample_dir, sample_tally)))
    by (vm_compute; reflexivity).
  split; [exact H|].
  exact (generateTable_fresh_tally _ _ _ _ _ _ H).
Defined.

(** ** [generateList] with a contributor that is not in the directory *)

Lemma generateList_loop_missing (dir : list (pystr * json))
      (ranked : list (pystr * Z)) (u : pystr) :
  In u (map fst ranked) -> lookup u dir = None ->
  exists pre missing post,
    ranked = pre ++ missing :: post /\
    (forall item, In item pre -> lookup (fst item) dir <> None) /\
    lookup (fst missing) dir = None /\
    generateList_loop dir ranked = (map (link_event dir) pre, Raise KeyError).
Proof.
  intros Hin Hu. induction ranked as [|[user n] ranked IH]; [destruct Hin|].
  cbn [generateList_loop]. unfold getitem.
  destruct (lookup user dir) as [url|] eqn:E.
  - destruct Hin as [Hin|Hin]; [simpl in Hin; congruence|].
    destruct (IH Hin) as (pre & missing & post & -> & Hpre & Hmiss & Hloop).
    exists ((user, n) :: pre), missing, post.
    split; [reflexivity|]. split; [|split; [exact Hmiss|]].
    + intros item [<-|Hitem]; [cbn [fst]; congruence|now apply Hpre].
    + rewrite bind_lift_ok, bind_print, Hloop. cbn [fst snd map].
      change (link_event dir (user, n))
        with (PrintLink user (url_of dir user)).
      unfold url_of. now rewrite E.
  - exists [], (user, n), ranked.
    split; [reflexivity|]. split; [intros item []|].
    split; [exact E|reflexivity].
Qed.

(** When a contributor of the tally has no entry in the directory,
    [generateList] prints the heading and then the links of exactly the
    contributors ranked before the first contributor that is not in the
    directory, each of which is in it, and raises [KeyError] at that
    contributor; the closing blank line is not printed. *)
Theorem generateList_missing_contributor (dir : list (pystr * json))
        (c : Counter) (label : pystr) (u : pystr) :
  In u (map fst (most_common c)) -> lookup u dir = None ->
  exists pre missing post,
    most_common c = pre ++ missing :: post /\
    (forall item, In item pre -> lookup (fst item) dir <> None) /\
    lookup (fst missing) dir = None /\
    generateList dir c label =
    (list_heading label :: map (link_event dir) pre, Raise KeyError).
Proof.
  intros Hin Hu.
  destruct (generateList_loop_missing dir _ u Hin Hu)
    as (pre & missing & post & E & Hpre & Hmiss & Hloop).
  exists pre, missing, post. repeat split; try assumption.
  unfold generateList. rewrite bind_print. cbn [fst snd].
  rewrite Hloop. reflexivity.
Qed.

Lemma generateList_missing_contributor_witness :
  In alice (map fst (most_common tie_tally)) /\
  lookup alice [(bob, JStr (profile bob)); (carol, JStr (profile carol))]
    = None /\
  exists pre missing post,
    most_common tie_tally = pre ++ missing :: post /\
    (forall item, In item pre ->
       lookup (fst item) [(bob, JStr (profile bob));
                          (carol, JStr (profile carol))] <> None) /\
    lookup (fst missing) [(bob, JStr (profile bob));
                          (carol, JStr (profile carol))] = None /\
    generateList [(bob, JStr (profile bob)); (carol, JStr (profile carol))]
                 tie_tally (lit "bug") =
    (list_heading (lit "bug")
       :: map (link_event [(bob, JStr (profile bob));
                           (carol, JStr (profile carol))]) pre,
     Raise KeyError).
Proof.
  assert (H1 : In alice (map fst (most_common tie_tally)))
    by (vm_compute; auto).
  assert (H2 : lookup alice [(bob, JStr (profile bob));
                             (carol, JStr (profile carol))] = None)
    by reflexivity.
  split; [exact H1|]. split; [exact H2|].
  exact (generateList_missing_contributor _ tie_tally (lit "bug") alice H1 H2).
Defined.

(** With alice missing from the directory, the links of bob and carol,
    ranked before her, are printed before the exception. *)
Example generateList_missing_alice :
  generateList [(bob, JStr (profile bob)); (carol, JStr (profile carol))]
               tie_tally (lit "bug")
  = ([list_heading (lit "bug");
      PrintLink bob (JStr (profile bob));
      PrintLink carol (JStr (profile carol))], Raise KeyError).
Proof. vm_compute. reflexivity. Qed.

(** ** How the sections of [main] compose *)

Lemma main_loop_cons (fetch : params -> json) (since : pystr) (limit : Z)
      (label : pystr) (rest : list pystr) :
  main_loop fetch since limit (label :: rest) =
  match main_loop fetch since limit [label] with
  | (out, Ok _) => (out ++ fst (main_loop fetch since limit rest),
                    snd (main_loop fetch since limit rest))
  | (out, Raise e) => (out, Raise e)
  end.
Proof.
  cbn [main_loop].
  destruct (generateTable _ _ limit []) as [o1 [[dir c]|e]];
    [|reflexivity].
  unfold bind at 1 3.
  destruct (generateList dir c label) as [o2 [[]|e]]; [|reflexivity].
  unfold bind, ret.
  destruct (main_loop fetch since limit rest) as [o3 r]. cbn [fst snd].
  now rewrite !app_nil_r, app_assoc.
Qed.

(** The report for the labels [l1 ++ l2] is the report for [l1] followed by
    the report for [l2]: every label starts from a fresh tally and no state
    passes from one section to the next.  An exception in a section ends
    the run there; the labels after it are not processed. *)
Theorem main_loop_app (fetch : params -> json) (since : pystr) (limit : Z)
        (l1 l2 : list pystr) :
  main_loop fetch since limit (l1 ++ l2) =
  match main_loop fetch since limit l1 with
  | (out, Ok _) => (out ++ fst (main_loop fetch since limit l2),
                    snd (main_loop fetch since limit l2))
  | (out, Raise e) => (out, Raise e)
  end.
Proof.
  induction l1 as [|label l1 IH].
  - simpl. now destruct (main_loop fetch since limit l2).
  - cbn [app]. rewrite (main_loop_cons _ _ _ label (l1 ++ l2)), IH.
    rewrite (main_loop_cons _ _ _ label l1).
    destruct (main_loop fetch since limit [label]) as [o1 [[]|e]];
      [|reflexivity].
    destruct (main_loop fetch since limit l1) as [o2 [[]|e]];
      cbn [fst snd]; [|reflexivity].
    now rewrite app_assoc.
Qed.

(** In report mode a response that is an object with at least one key, as
    the service sends for a repository or label that does not exist, is
    not reported as not found: after the banner, the heading and the table
    header of the first label, [main] ends with [TypeError], and no later
    label is processed. *)
Theorem main_error_object (fetch : params -> json) (repo since : pystr)
        (limit : Z) (label : pystr) (rest : list pystr)
        (field : pystr * json) (fields : list (pystr * json)) :
  fetch (label_params label since) = JDict (field :: fields) ->
  main fetch repo since limit (label :: rest) =
  ([PrintBanner repo (label :: rest); heading (label_params label since);
    Println intro], Raise TypeError).
Proof.
  intros H. unfold main. rewrite bind_print. cbn [main_loop].
  fold (label_params label since). rewrite H. reflexivity.
Qed.

Lemma main_error_object_witness :
  (fun _ : params => not_found_response)
    (label_params (lit "bug") (lit "2017-05-01"))
  = JDict ((lit "message", JStr (lit "Not Found"))
             :: [(lit "documentation_url",
                  JStr (lit "https://developer.github.com/v3"))]) /\
  main (fun _ => not_found_response) (lit "o/r") (lit "2017-05-01") 180
       (lit "bug" :: [lit "build"]) =
  ([PrintBanner (lit "o/r") (lit "bug" :: [lit "build"]);
    heading (label_params (lit "bug") (lit "2017-05-01"));
    Println intro], Raise TypeError).
Proof.
  split; [reflexivity|].
  apply (main_error_object (fun _ => not_found_response) (lit "o/r")
           (lit "2017-05-01") 180 (lit "bug") [lit "build"]
           (lit "message", JStr (lit "Not Found"))
           [(lit "documentation_url",
             JStr (lit "https://developer.github.com/v3"))]).
  reflexivity.
Defined.

(** ** The displayed label *)

Lemma upper_B (c : char) : upper c = 66%N <-> lower c = 98%N.
Proof.
  unfold upper, lower.
  destruct (N.leb 97 c) eqn:E1; destruct (N.leb c 122) eqn:E2;
    destruct (N.leb 65 c) eqn:E3; destruct (N.leb c 90) eqn:E4;
    cbn [andb];
    try apply N.leb_le in E1; try apply N.leb_gt in E1;
    try apply N.leb_le in E2; try apply N.leb_gt in E2;
    try apply N.leb_le in E3; try apply N.leb_gt in E3;
    try apply N.leb_le in E4; try apply N.leb_gt in E4; lia.
Qed.

Lemma lower_not_F (c : char) : lower c <> 70%N.
Proof.
  unfold lower.
  destruct (N.leb 65 c) eqn:E3; destruct (N.leb c 90) eqn:E4; cbn [andb];
    try apply N.leb_le in E3; try apply N.leb_gt in E3;
    try apply N.leb_le in E4; try apply N.leb_gt in E4; lia.
Qed.

Lemma display_label_bug_iff (label : pystr) :
  display_label label = lit "Bug Fix" <-> map lower label = lit "bug".
Proof.
  unfold display_label. split.
  - destruct (str_eqb (capitalize label) (lit "Bug")) eqn:E.
    + intros _. apply str_eqb_eq in E.
      destruct label as [|a [|b [|c [|d l]]]]; try discriminate E.
      cbn in E. inversion E as [[Ha Hb Hc]].
      apply upper_B in Ha. cbn. now rewrite Ha, Hb, Hc.
    + intros H.
      destruct label as [|a [|b [|c [|d [|e l]]]]]; try discriminate H.
      cbn in H. assert (He : lower e = 70%N) by congruence.
      now apply lower_not_F in He.
  - intros H.
    destruct label as [|a [|b [|c [|d l]]]]; try discriminate H.
    cbn in H. inversion H as [[Ha Hb Hc]].
    apply upper_B in Ha.
    assert (E : capitalize [a; b; c] = lit "Bug")
      by (cbn; now rewrite Ha, Hb, Hc).
    rewrite E. reflexivity.
Qed.

(** A label is displayed as [Bug Fix] exactly when it is [bug] in some mix
    of upper and lower case, and every other label is displayed
    capitalized: its first character in upper case and the others in lower
    case, as far as they are ASCII letters, the empty label as the empty
    text.  The displayed label is what the first line of [generateTable]
    and of [generateList] shows, in every run. *)
Theorem display_label_bug (label : pystr) :
  (display_label label = lit "Bug Fix" <-> map lower label = lit "bug") /\
  display_label label =
    (if str_eqb (map lower label) (lit "bug") then lit "Bug Fix"
     else match label with
          | [] => []
          | first :: others => upper first :: map lower others
          end) /\
  (forall (output : json) (state since : pystr) (limit : Z) (c : Counter),
      exists rest,
        fst (generateTable output
               {| labels := label; state := state; since := since |} limit c)
        = Println (LF :: lit "## " ++ display_label label ++ lit " Updates")
            :: rest) /\
  (forall (dir : list (pystr * json)) (c : Counter),
      exists rest,
        fst (generateList dir c label)
        = Println (LF :: lit "### " ++ display_label label
                      ++ lit " Contributors" ++ [LF]) :: rest).
Proof.
  split; [apply display_label_bug_iff|]. split; [|split].
  - destruct (str_eqb (map lower label) (lit "bug")) eqn:E.
    + apply str_eqb_eq in E. now apply display_label_bug_iff.
    + unfold display_label.
      destruct (str_eqb (capitalize label) (lit "Bug")) eqn:Ec;
        [|now destruct label].
      exfalso. apply str_eqb_neq in E. apply E.
      apply display_label_bug_iff. unfold display_label. now rewrite Ec.
  - intros output st si limit c. unfold generateTable.
    rewrite bind_print. cbn [fst labels]. eexists. reflexivity.
  - intros dir c. unfold generateList. rewrite bind_print. cbn [fst].
    eexists. reflexivity.
Qed.

(** ** The command line *)

Section CommandLine.

Lemma cli_step_int (z : Z) (result : json) (st : pass) :
  Cli.generateTable_step (IntLimit z) result st = generateTable_step z result st.
Proof. reflexivity. Qed.

Lemma cli_loop_int (z : Z) (results : list json) :
  forall st, Cli.generateTable_loop (IntLimit z) results st
             = generateTable_loop z results st.
Proof.
  induction results as [|r results IH]; intros st; [reflexivity|].
  cbn [Cli.generateTable_loop generateTable_loop].
  rewrite cli_step_int. unfold bind.
  destruct (generateTable_step z r st) as [o [st'|e]]; [|reflexivity].
  now rewrite IH.
Qed.

Lemma cli_generateTable_int (output : json) (p : params) (z : Z)
      (c : Counter) :
  Cli.generateTable output p (IntLimit z) c = generateTable output p z c.
Proof.
  unfold Cli.generateTable, generateTable.
  destruct (iter output) as [results|e]; [|reflexivity].
  rewrite !bind_print, !bind_lift_ok. now rewrite cli_loop_int.
Qed.

Lemma cli_main_loop_int (fetch : params -> json) (since : pystr) (z : Z)
      (label_list : list pystr) :
  Cli.main_loop fetch since (IntLimit z) label_list
  = main_loop fetch since z label_list.
Proof.
  induction label_list as [|label rest IH]; [reflexivity|].
  cbn [Cli.main_loop main_loop]. rewrite cli_generateTable_int, IH.
  reflexivity.
Qed.

Lemma cli_main_int (fetch : params -> json) (repo since : pystr) (z : Z)
      (label_list : list pystr) :
  Cli.main fetch repo since (IntLimit z) label_list
  = main fetch repo since z label_list.
Proof.
  unfold Cli.main, main. now rewrite cli_main_loop_int.
Qed.

(** With a string for the limit the loop body cannot get past the slice
    of the body. *)
Lemma cli_step_str (s : pystr) (result : json) (st : pass) :
  exists e,
    Cli.generateTable_step (StrLimit s) result st = ([], Raise e) /\
    (forall title url body user user_url,
        issue_fields result title url body user user_url -> e = TypeError).
Proof.
  unfold Cli.generateTable_step.
  destruct (getitem result (lit "title")) as [t|e] eqn:Et.
  2:{ exists e. split; [reflexivity|]. intros ? ? ? ? ? [H _ _ _]. congruence. }
  rewrite bind_lift_ok.
  destruct (encode t) as [t'|e] eqn:Ee.
  2:{ exists e. split; [reflexivity|]. intros ? ? ? ? ? [H _ _ _].
      rewrite H in Et. inversion Et; subst. discriminate Ee. }
  rewrite bind_lift_ok.
  destruct (getitem result (lit "html_url")) as [u|e] eqn:Eu.
  2:{ exists e. split; [reflexivity|]. intros ? ? ? ? ? [_ H _ _]. congruence. }
  rewrite bind_lift_ok.
  destruct (getitem result (lit "body")) as [b|e] eqn:Eb.
  2:{ exists e. split; [reflexivity|]. intros ? ? ? ? ? [_ _ H _]. congruence. }
  rewrite bind_lift_ok. exists TypeError. split; reflexivity.
Qed.

End CommandLine.

(** A limit given on the command line is a string.  In report mode the
    first issue of the first label then ends the run with an exception
    ([TypeError] at [result['body'][0:limit]] when the issue is well
    formed), after the banner, the heading and the table header: no row
    is ever printed. *)
Theorem script_limit_given (get : pystr -> option params -> json)
        (args : arguments) (s : pystr) (label : pystr) (rest : list pystr)
        (result : json) (results : list json) :
  arg_list args = false ->
  labels_all args = false ->
  arg_limit args = StrLimit s ->
  arg_labels args = label :: rest ->
  get (url_issues (arg_repo args)) (Some (label_params label (arg_since args)))
    = JList (result :: results) ->
  exists e,
    script get args =
    ([Printed (PrintBanner (arg_repo args) (label :: rest));
      Printed (heading (label_params label (arg_since args)));
      Printed (Println intro)], Raise e) /\
    (forall title url body user user_url,
        issue_fields result title url body user user_url -> e = TypeError).
Proof.
  intros Hlist Hall Hlimit Hlabels Hget.
  destruct (cli_step_str s result
              {| contributors := []; tally := []; total := 0 |})
    as (e & Hstep & He).
  exists e. split; [|exact He].
  unfold script. rewrite Hlist, Hall, Hlimit, Hlabels. cbn [orb ret].
  unfold Cli.main. rewrite bind_print. cbn [Cli.main_loop].
  fold (label_params label (arg_since args)). rewrite Hget.
  unfold Cli.generateTable. rewrite !bind_print. cbn [iter].
  rewrite bind_lift_ok. cbn [Cli.generateTable_loop]. rewrite Hstep.
  reflexivity.
Qed.

Lemma script_limit_given_witness :
  arg_list limit_given = false /\
  labels_all limit_given = false /\
  arg_limit limit_given = StrLimit (lit "100") /\
  arg_labels limit_given = lit "bug" :: [] /\
  (fun (_ : pystr) (_ : option params) => JList [issue_by alice])
    (url_issues (arg_repo limit_given))
    (Some (label_params (lit "bug") (arg_since limit_given)))
  = JList (issue_by alice :: []) /\
  exists e,
    script (fun _ _ => JList [issue_by alice]) limit_given =
    ([Printed (PrintBanner (arg_repo limit_given) (lit "bug" :: []));
      Printed (heading (label_params (lit "bug") (arg_since limit_given)));
      Printed (Println intro)], Raise e) /\
    (forall title url body user user_url,
        issue_fields (issue_by alice) title url body user user_url ->
        e = TypeError).
Proof.
  repeat (split; [reflexivity|]).
  exact (script_limit_given (fun _ _ => JList [issue_by alice]) limit_given
           (lit "100") (lit "bug") [] (issue_by alice) []
           eq_refl eq_refl eq_refl eq_refl eq_refl).
Defined.

(** With [--list] or [--all] the labels come from [getLabels], which
    returns no label: the run either ends with the exception of
    [getLabels], nothing printed, or, for a repository that does not
    exist, prints the not-found message and then the empty list of labels
    with the hint ([--list]) or the banner of a report over no label
    ([--all] alone).  The labels given on the command line are not used
    and no table is printed. *)
Theorem script_label_modes (get : pystr -> option params -> json)
        (args : arguments) :
  arg_list args || labels_all args = true ->
  script get args =
  match getLabels (get (url_labels (arg_repo args)) None) with
  | (_, Raise e) => ([], Raise e)
  | (_, Ok _) =>
      if arg_list args then
        ([Printed (Println (lit "That repo and/or label was not found."));
          PrintLabels [];
          Printed (Println (lit "Don't use --list next time if you want your issues outputs."))],
         Ok tt)
      else
        ([Printed (Println (lit "That repo and/or label was not found."));
          Printed (PrintBanner (arg_repo args) [])], Ok tt)
  end.
Proof.
  intros H. unfold script. rewrite H.
  rewrite (getLabels_cases (get (url_labels (arg_repo args)) None)).
  destruct (get (url_labels (arg_repo args)) None) as [| | | | |l|d];
    try reflexivity.
  destruct (lookup (lit "message") d) as [m|]; [|reflexivity].
  destruct (eq_str m (lit "Not Found")); [|reflexivity].
  destruct (arg_list args); reflexivity.
Qed.

Lemma script_label_modes_witness :
  arg_list all_given || labels_all all_given = true /\
  script (fun _ _ => JList [JDict [(lit "name", JStr (lit "bug"))]]) all_given
  = match getLabels ((fun (_ : pystr) (_ : option params) =>
                        JList [JDict [(lit "name", JStr (lit "bug"))]])
                       (url_labels (arg_repo all_given)) None) with
    | (_, Raise e) => ([], Raise e)
    | (_, Ok _) =>
        if arg_list all_given then
          ([Printed (Println (lit "That repo and/or label was not found."));
            PrintLabels [];
            Printed (Println (lit "Don't use --list next time if you want your issues outputs."))],
           Ok tt)
        else
          ([Printed (Println (lit "That repo and/or label was not found."));
            Printed (PrintBanner (arg_repo all_given) [])], Ok tt)
    end.
Proof.
  split; [reflexivity|].
  exact (script_label_modes
           (fun _ _ => JList [JDict [(lit "name", JStr (lit "bug"))]])
           all_given eq_refl).
Defined.

(** Without [--list], [--all] and [--limit], the script is [main] over the
    labels of the command line at the limit 180. *)
Example script_default_mode
        (get : pystr -> option params -> json) (repo since message : pystr)
        (label_list : list pystr) :
  script get {| arg_repo := repo; arg_since := since;
                arg_limit := IntLimit 180; arg_list := false;
                arg_labels := label_list; arg_all := None;
                arg_message := message |}
  = (map Printed
         (fst (main (fun p => get (url_issues repo) (Some p))
                    repo since 180 label_list)),
     snd (main (fun p => get (url_issues repo) (Some p))
               repo since 180 label_list)).
Proof.
  unfold script. cbn [arg_repo arg_list arg_labels arg_since
                      arg_limit labels_all arg_all orb ret].
  rewrite cli_main_int.
  now destruct (main _ repo since 180 label_list).
Qed.

(** ** When the placeholder is printed *)

Section Placeholder.

Lemma split_cons_space (c : char) (s : pystr) :
  isspace c = true -> split (c :: s) = split s.
Proof.
  intros H. unfold split at 1. rewrite scan_space by exact H. reflexivity.
Qed.

Lemma split_cons_nonspace (c : char) (s : pystr) :
  isspace c = false -> split (c :: s) <> [].
Proof.
  intros H. unfold split. simpl. destruct (scan s) as [w ws].
  rewrite H. discriminate.
Qed.

Lemma split_nil_iff (s : pystr) :
  split s = [] <-> Forall (fun c => isspace c = true) s.
Proof.
  induction s as [|c s IH].
  - split; [constructor|reflexivity].
  - destruct (isspace c) eqn:E.
    + rewrite split_cons_space by exact E. rewrite IH. split.
      * now constructor.
      * intros H. now inversion H.
    + split.
      * intros H. now apply split_cons_nonspace in H.
      * intros H. inversion H; subst. congruence.
Qed.

Lemma bodyBreaker_nil_iff (body : pystr) (width : nat) :
  bodyBreaker body width = [] <-> split body = [].
Proof.
  rewrite bodyBreaker_concat. destruct (split body) as [|t ts].
  - split; reflexivity.
  - split; [|discriminate]. simpl. unfold spaced at 1. intros H.
    apply app_eq_nil in H as [H _]. apply app_eq_nil in H as [_ H].
    discriminate H.
Qed.

Lemma bodyBreaker_not_placeholder (body : pystr) (width : nat) :
  bodyBreaker body width <> lit "n/a".
Proof.
  destruct (bodyBreaker_ends_space body width) as [E|[q E]]; rewrite E.
  - discriminate.
  - change (lit "n/a") with (lit "n/" ++ [97%N]). intros H.
    apply app_inj_tail in H as [_ H]. discriminate H.
Qed.

Lemma replace_char_keep (old : char) (new s : pystr) (c : char) :
  In c s -> c <> old -> In c (replace_char old new s).
Proof.
  intros Hin Hne. unfold replace_char. apply in_flat_map. exists c.
  split; [exact Hin|].
  destruct (char_eqb c old) eqn:E; [|now left].
  unfold char_eqb in E. apply N.eqb_eq in E. contradiction.
Qed.

Lemma cleaned_blank_iff (body : pystr) :
  Forall (fun c => isspace c = true) (cleaned body) <->
  Forall (fun c => isspace c = true \/ c = BACKTICK) body.
Proof.
  rewrite !Forall_forall. unfold cleaned. split; intros H c Hc.
  - destruct (N.eq_dec c BACKTICK) as [->|Hb]; [now right|]. left.
    destruct (N.eq_dec c CR) as [->|Hr]; [reflexivity|].
    destruct (N.eq_dec c LF) as [->|Hl]; [reflexivity|].
    apply H. repeat apply replace_char_keep; assumption.
  - apply replace_char_in in Hc as [[]|[Hc Hb]].
    apply replace_char_in in Hc as [[]|[Hc Hr]].
    apply replace_char_in in Hc as [[<-|[]]|[Hc Hl]]; [reflexivity|].
    destruct (H c Hc) as [Hs|Hs]; [exact Hs|contradiction].
Qed.

End Placeholder.

(** The summary cell is the placeholder [n/a] exactly when the body is at
    most [limit] long and holds nothing but whitespace and backticks (the
    empty body included).  A longer body always shows at least its
    ellipsis marker. *)
Theorem body_cell_placeholder (limit : Z) (body : pystr) :
  body_cell limit body = lit "n/a" <->
  (Z.of_nat (length body) <= limit)%Z /\
  Forall (fun c => isspace c = true \/ c = BACKTICK) body.
Proof.
  unfold body_cell. cbv zeta.
  destruct (length (bodyBreaker (marked_body limit body) 50) =? 0) eqn:L.
  - apply Nat.eqb_eq, length_zero_iff_nil, bodyBreaker_nil_iff in L.
    unfold marked_body in L.
    destruct (limit <? Z.of_nat (length body))%Z eqn:E.
    + exfalso.
      destruct (split_app_word (trimmed_body limit body) (lit "..."))
        as (init & t & Hs); [split; [discriminate|repeat constructor]|].
      rewrite Hs in L. now destruct init.
    + apply Z.ltb_ge in E. unfold trimmed_body in L.
      rewrite (slice_to_all limit body E) in L.
      apply split_nil_iff, cleaned_blank_iff in L. tauto.
  - split.
    + intros H. now apply bodyBreaker_not_placeholder in H.
    + intros [Hle Hblank]. exfalso.
      unfold marked_body in L.
      replace (limit <? Z.of_nat (length body))%Z with false in L
        by (symmetry; apply Z.ltb_ge; lia).
      unfold trimmed_body in L. rewrite (slice_to_all limit body Hle) in L.
      apply cleaned_blank_iff, split_nil_iff in Hblank.
      apply (bodyBreaker_nil_iff _ 50) in Hblank.
      rewrite Hblank in L. discriminate L.
Qed.

(** ** The ellipsis marker *)

Section Ellipsis.





End Ellipsis.



